(** * AIGamePartner: the analysis coordinator and its channels

    A shallow embedding of [src/screen_capture.py], [src/ai_client.py] and
    the coordinator of [src/main.py], followed by the properties of the
    specification that concern them.

    Conventions of the embedding.
    - Python lists are Rocq lists, oldest element first; [l.append(x)] is
      [l ++ [x]] and [l.pop(0)] removes the head.
    - [queue.Queue] is a list, oldest entry first: [put] appends at the
      back, [get_nowait] takes the head.
    - Clock readings ([time.time()]) and durations are exact rationals, in
      seconds.
    - An attribute that a method mutates is a record field; a method is a
      function from the object before the call to the object after it.
    - What the outside world answers (the remote completion call, the
      clock, the screen grab) is an argument of the function that asks. *)

From Stdlib Require Import String Ascii List Bool ZArith QArith Qminmax Lia Lqa.
From Stdlib Require Import DecimalString.
Import ListNotations.

Local Open Scope string_scope.
Local Open Scope list_scope.
Local Open Scope Z_scope.

(* ================================================================== *)
(** ** Python primitives used by the sources *)
(* ================================================================== *)

Module Py.

(** The exceptions that the modelled statements can raise. *)
Inductive Exn : Type :=
| KeyError (key : string)
| IndexError (msg : string)
| RemoteError (msg : string).

(** [str(e)]: a [KeyError] prints the repr of its key. *)
Definition str (e : Exn) : string :=
  match e with
  | KeyError key => ("'" ++ key ++ "'")%string
  | IndexError msg => msg
  | RemoteError msg => msg
  end.

(** Truth value of a string: only the empty string is false. *)
Definition truthy (s : string) : bool :=
  match s with
  | EmptyString => false
  | String _ _ => true
  end.

(** Truth value of an optional string ([None] and [""] are false). *)
Definition truthy_opt (o : option string) : bool :=
  match o with
  | None => false
  | Some s => truthy s
  end.

(** [l[start:]] for an arbitrary integer [start]: a negative index counts
    from the end, and the result is clamped to the list. *)
Definition slice_from {A : Type} (start : Z) (l : list A) : list A :=
  let n := Z.of_nat (length l) in
  let lo := if start <? 0 then Z.max (start + n) 0 else Z.min start n in
  skipn (Z.to_nat lo) l.

(** The loop [while len(l) > limit: x = l.pop(0); ...].  The result is the
    popped elements in the order they were popped, the list that is left,
    and whether the loop ended with [IndexError] from [pop] on an empty
    list (which happens exactly when [limit] is negative). *)
Fixpoint pop_while_longer {A : Type} (limit : Z) (l : list A)
  : list A * list A * bool :=
  match l with
  | [] => ([], [], 0 >? limit)
  | x :: t =>
      if Z.of_nat (length l) >? limit
      then let '(popped, rest, raised) := pop_while_longer limit t in
           (x :: popped, rest, raised)
      else ([], l, false)
  end.

(** Decimal rendering of an integer inside an f-string. *)
Definition format_int (z : Z) : string := NilZero.string_of_int (Z.to_int z).

Definition nl : string := String (ascii_of_nat 10) EmptyString.

End Py.

(* ================================================================== *)
(** ** screen_capture.py *)
(* ================================================================== *)

Module screen_capture_py.

Record Screenshot : Type := {
  image_path : string;
  timestamp : Q
}.

(** [ScreenCapture]: the store and its capacity.  [removed] is a trace of
    the store's side effect on the file system: the screenshots whose file
    [_capture_loop] removed, in the order of removal. *)
Record ScreenCapture : Type := {
  screenshots : list Screenshot;
  max_screenshots : Z;
  removed : list Screenshot
}.

(** [ScreenCapture.__init__]. *)
Definition init (max : Z) : ScreenCapture :=
  {| screenshots := []; max_screenshots := max; removed := [] |}.

(** How one iteration of [_capture_loop] ended. *)
Inductive IterationStatus : Type :=
| Inserted        (* the screenshot was appended and the eviction loop ran to its end *)
| CaptureFailed   (* [_capture_screen] returned None: nothing inserted *)
| LoopError.      (* an exception reached the handler of the loop body *)

(** One iteration of the body of [_capture_loop].  [img] is what the grab
    produced: [Some s] is the saved screenshot, [None] a failed capture. *)
Definition _capture_loop_iteration (img : option Screenshot) (self : ScreenCapture)
  : ScreenCapture * IterationStatus :=
  match img with
  | Some shot =>
      let appended := screenshots self ++ [shot] in
      let '(popped, rest, raised) :=
        Py.pop_while_longer (max_screenshots self) appended in
      ({| screenshots := rest;
          max_screenshots := max_screenshots self;
          removed := removed self ++ popped |},
       if raised then LoopError else Inserted)
  | None => (self, CaptureFailed)
  end.

(** [_capture_loop] over the grabs of successive iterations. *)
Fixpoint _capture_loop (imgs : list (option Screenshot)) (self : ScreenCapture)
  : ScreenCapture :=
  match imgs with
  | [] => self
  | img :: later => _capture_loop later (fst (_capture_loop_iteration img self))
  end.

(** The screenshots that a run of grabs produced, in order. *)
Fixpoint captured (imgs : list (option Screenshot)) : list Screenshot :=
  match imgs with
  | [] => []
  | Some shot :: later => shot :: captured later
  | None :: later => captured later
  end.

(** [get_recent_screenshots]: [self.screenshots[-count:] if self.screenshots
    else []].  The slice is a new list; [self] is only read. *)
Definition get_recent_screenshots (self : ScreenCapture) (count : Z)
  : list Screenshot :=
  match screenshots self with
  | [] => []
  | _ :: _ => Py.slice_from (- count) (screenshots self)
  end.

(** [get_screenshot_count]. *)
Definition get_screenshot_count (self : ScreenCapture) : Z :=
  Z.of_nat (length (screenshots self)).

End screen_capture_py.

(* ================================================================== *)
(** ** ai_client.py *)
(* ================================================================== *)

Module ai_client_py.

Import screen_capture_py.

Inductive Role : Type := user | assistant.

(** One entry of [conversation_history]:
    [{"role": r, "content": [{"type": "text", "text": t}]}]. *)
Record Turn : Type := {
  role : Role;
  text : string
}.

Definition user_turn (t : string) : Turn := {| role := user; text := t |}.
Definition assistant_turn (t : string) : Turn := {| role := assistant; text := t |}.

(** The [game_state] dictionary.  A key that may be absent is an option:
    [gs_screenshots = None] is a dictionary without the key
    ["screenshots"]; for [message] and [game_name], read with [.get], an
    absent key and the value [None] are the same.  [additional_context]
    holds the rendering of its value. *)
Record GameState : Type := {
  gs_screenshots : option (list Screenshot);
  gs_message : option string;
  gs_game_name : option string;
  gs_additional_context : option string
}.

(** What [self.client.messages.create] does on one call: it returns a
    message with a list of text blocks, or it raises. *)
Inductive RemoteOutcome : Type :=
| Returns (content : list string)
| Raises (msg : string).

(** A call of [self.client.messages.create]: the [messages] argument, and
    the game state that [analyze] was building the request for. *)
Record Request : Type := {
  req_state : GameState;
  req_messages : list Turn
}.

(** [AIClient].  [requests] is the trace of the calls issued through
    [self.client], oldest first. *)
Record AIClient : Type := {
  conversation_history : list Turn;
  max_history : Z;
  max_response_length : Z;
  requests : list Request
}.

(** [AIClient.__init__]. *)
Definition init (memory_window_size max_response_length : Z) : AIClient :=
  {| conversation_history := [];
     max_history := memory_window_size;
     max_response_length := max_response_length;
     requests := [] |}.

Definition set_history (h : list Turn) (self : AIClient) : AIClient :=
  {| conversation_history := h;
     max_history := max_history self;
     max_response_length := max_response_length self;
     requests := requests self |}.

Definition log_request (r : Request) (self : AIClient) : AIClient :=
  {| conversation_history := conversation_history self;
     max_history := max_history self;
     max_response_length := max_response_length self;
     requests := requests self ++ [r] |}.

(** *** Statements of a method body

    A statement maps the object to a result and the object after it; the
    result is a value or a raised exception.  What a statement did to the
    object before raising stays done. *)

Definition Stmt (A : Type) : Type := AIClient -> (Py.Exn + A) * AIClient.

Definition ret {A : Type} (a : A) : Stmt A := fun self => (inr a, self).

Definition raise {A : Type} (e : Py.Exn) : Stmt A := fun self => (inl e, self).

Definition bind {A B : Type} (c : Stmt A) (k : A -> Stmt B) : Stmt B :=
  fun self =>
    match c self with
    | (inr a, self') => k a self'
    | (inl e, self') => (inl e, self')
    end.

Definition get_self : Stmt AIClient := fun self => (inr self, self).

Definition modify (f : AIClient -> AIClient) : Stmt unit :=
  fun self => (inr tt, f self).

Declare Scope stmt_scope.
Delimit Scope stmt_scope with stmt.
Notation "x <- c ;; k" := (bind c (fun x => k))
  (at level 61, c at next level, right associativity) : stmt_scope.
Notation "c ;; k" := (bind c (fun _ => k))
  (at level 61, right associativity) : stmt_scope.

(** [game_state['screenshots']]. *)
Definition subscript_screenshots (game_state : GameState) : Stmt (list Screenshot) :=
  match gs_screenshots game_state with
  | Some shots => ret shots
  | None => raise (Py.KeyError "screenshots")
  end.

(** The f-string that [analyze] starts from. *)
Definition base_prompt (n_screenshots : nat) (max_len : Z) (context : option string)
  : string :=
  let indent := "            " in
  ("Analyze these " ++ Py.format_int (Z.of_nat n_screenshots) ++ " screenshots." ++ Py.nl
   ++ indent ++ Py.nl
   ++ indent ++ "Remember:" ++ Py.nl
   ++ indent ++ "- Keep your response under " ++ Py.format_int max_len
             ++ " characters" ++ Py.nl
   ++ indent ++ "- Focus on what's new/changed" ++ Py.nl
   ++ indent ++ "- One clear, actionable suggestion" ++ Py.nl
   ++ indent ++ "- If no game is detected and there's no user message, respond with 'Waiting for gameplay...'" ++ Py.nl
   ++ indent ++ "- If there's a user message, respond to it conversationally while mentioning that you're waiting for gameplay" ++ Py.nl
   ++ indent ++ Py.nl
   ++ indent ++ "Additional context: "
   ++ match context with Some c => c | None => "None provided" end)%string.

(** [human_message] after the two optional prefixes. *)
Definition human_message (self : AIClient) (game_state : GameState)
    (shots : list Screenshot) : string :=
  let m0 := base_prompt (length shots) (max_response_length self)
              (gs_additional_context game_state) in
  let m1 :=
    match gs_message game_state with
    | Some m => if Py.truthy m
                then ("User message: " ++ m ++ Py.nl ++ Py.nl ++ m0)%string
                else m0
    | None => m0
    end in
  match gs_game_name game_state with
  | Some g => if Py.truthy g
              then ("Game: " ++ g ++ Py.nl ++ Py.nl ++ m1)%string
              else m1
  | None => m1
  end.

(** [self.client.messages.create(..., messages=messages)]: the call is
    recorded, then the remote answers with [reply]. *)
Definition messages_create (reply : RemoteOutcome) (game_state : GameState)
    (messages : list Turn) : Stmt (list string) :=
  fun self =>
    let self' := log_request {| req_state := game_state; req_messages := messages |} self in
    match reply with
    | Returns content => (inr content, self')
    | Raises msg => (inl (Py.RemoteError msg), self')
    end.

(** [response.content[0].text]. *)
Definition content_0_text (content : list string) : Stmt string :=
  match content with
  | t :: _ => ret t
  | [] => raise (Py.IndexError "list index out of range")
  end.

(** [self.conversation_history.append(turn)]. *)
Definition history_append (turn : Turn) : Stmt unit :=
  modify (fun self => set_history (conversation_history self ++ [turn]) self).

(** [while len(self.conversation_history) > self.max_history * 2:
       self.conversation_history.pop(0)]. *)
Definition trim_history : Stmt unit :=
  fun self =>
    let '(_, rest, raised) :=
      Py.pop_while_longer (max_history self * 2) (conversation_history self) in
    (if raised then inl (Py.IndexError "pop from empty list") else inr tt,
     set_history rest self).

Local Open Scope stmt_scope.

(** The [try] block of [analyze]. *)
Definition analyze_try (reply : RemoteOutcome) (game_state : GameState) : Stmt string :=
  shots <- subscript_screenshots game_state ;;
  self <- get_self ;;
  let human_message := human_message self game_state shots in
  let messages := conversation_history self ++ [user_turn human_message] in
  content <- messages_create reply game_state messages ;;
  history_append (user_turn human_message) ;;
  reply_text <- content_0_text content ;;
  history_append (assistant_turn reply_text) ;;
  trim_history ;;
  content_0_text content.

(** [analyze]: the [try] block with its [except Exception] handler, which
    turns every exception into the returned string. *)
Definition analyze (reply : RemoteOutcome) (game_state : GameState)
    (self : AIClient) : string * AIClient :=
  match analyze_try reply game_state self with
  | (inr response, self') => (response, self')
  | (inl e, self') => (("Error analyzing game state: " ++ Py.str e)%string, self')
  end.

(** [cleanup]. *)
Definition cleanup (self : AIClient) : AIClient := set_history [] self.

End ai_client_py.

(* ================================================================== *)
(** ** main.py: the coordinator *)
(* ================================================================== *)

Module main_py.

Import screen_capture_py ai_client_py.

(** An entry of [ui_update_queue]: a closure that the UI thread will call.
    [add_message text is_ai] is
    [lambda: self.overlay.add_message(text, time.time(), is_ai=is_ai)];
    the time stamp is read when the UI thread runs the closure. *)
Inductive UiInstruction : Type :=
| add_message (text : string) (is_ai : bool)
| toggle_visibility
| cycle_position
| show_input.

Record GamePartner : Type := {
  screen_capture : ScreenCapture;
  ai_client : AIClient;
  message_queue : list string;
  ui_update_queue : list UiInstruction;
  current_game : option string;
  last_analysis_time : Q;
  analysis_cooldown : Q;
  running : bool
}.

(** The settings that [__init__] reads from the configuration. *)
Record Config : Type := {
  cooldown_seconds : Q;
  cfg_max_screenshots : Z;
  memory_window_size : Z;
  cfg_max_response_length : Z
}.

(** [GamePartner.__init__]. *)
Definition init (config : Config) : GamePartner :=
  {| screen_capture := screen_capture_py.init (cfg_max_screenshots config);
     ai_client := ai_client_py.init (memory_window_size config)
                    (cfg_max_response_length config);
     message_queue := [];
     ui_update_queue := [];
     current_game := None;
     last_analysis_time := 0%Q;
     analysis_cooldown := Qmax (cooldown_seconds config) 5%Q;
     running := true |}.

Definition set_ai_client (c : AIClient) (self : GamePartner) : GamePartner :=
  {| screen_capture := screen_capture self;
     ai_client := c;
     message_queue := message_queue self;
     ui_update_queue := ui_update_queue self;
     current_game := current_game self;
     last_analysis_time := last_analysis_time self;
     analysis_cooldown := analysis_cooldown self;
     running := running self |}.

Definition set_message_queue (q : list string) (self : GamePartner) : GamePartner :=
  {| screen_capture := screen_capture self;
     ai_client := ai_client self;
     message_queue := q;
     ui_update_queue := ui_update_queue self;
     current_game := current_game self;
     last_analysis_time := last_analysis_time self;
     analysis_cooldown := analysis_cooldown self;
     running := running self |}.

Definition set_ui_update_queue (q : list UiInstruction) (self : GamePartner)
  : GamePartner :=
  {| screen_capture := screen_capture self;
     ai_client := ai_client self;
     message_queue := message_queue self;
     ui_update_queue := q;
     current_game := current_game self;
     last_analysis_time := last_analysis_time self;
     analysis_cooldown := analysis_cooldown self;
     running := running self |}.

Definition set_last_analysis_time (t : Q) (self : GamePartner) : GamePartner :=
  {| screen_capture := screen_capture self;
     ai_client := ai_client self;
     message_queue := message_queue self;
     ui_update_queue := ui_update_queue self;
     current_game := current_game self;
     last_analysis_time := t;
     analysis_cooldown := analysis_cooldown self;
     running := running self |}.

Definition set_screen_capture (sc : ScreenCapture) (self : GamePartner) : GamePartner :=
  {| screen_capture := sc;
     ai_client := ai_client self;
     message_queue := message_queue self;
     ui_update_queue := ui_update_queue self;
     current_game := current_game self;
     last_analysis_time := last_analysis_time self;
     analysis_cooldown := analysis_cooldown self;
     running := running self |}.

(** [self.ui_update_queue.put(update)]. *)
Definition ui_put (update : UiInstruction) (self : GamePartner) : GamePartner :=
  set_ui_update_queue (ui_update_queue self ++ [update]) self.

(** The message callback installed by [run]:
    [lambda msg: self.message_queue.put(msg)]. *)
Definition put_message (msg : string) (self : GamePartner) : GamePartner :=
  set_message_queue (message_queue self ++ [msg]) self.

(** [_process_message].  No statement of its [try] block raises ([analyze]
    returns a string in every case), so the handler is never entered. *)
Definition _process_message (reply : RemoteOutcome) (message : string)
    (self : GamePartner) : GamePartner :=
  match get_recent_screenshots (screen_capture self) 1 with
  | [] => self
  | (_ :: _) as screenshots =>
      let game_state :=
        {| gs_screenshots := Some (Py.slice_from (-1) screenshots);
           gs_message := Some message;
           gs_game_name := current_game self;
           gs_additional_context := Some "{}" |} in
      let '(response, client) := analyze reply game_state (ai_client self) in
      let self := set_ai_client client self in
      let self := ui_put (add_message message false) self in
      if Py.truthy response
      then ui_put (add_message response true) self
      else self
  end.

(** [_analyze_game_state]. *)
Definition _analyze_game_state (reply : RemoteOutcome) (self : GamePartner)
  : GamePartner :=
  match get_recent_screenshots (screen_capture self) 1 with
  | [] => self
  | (_ :: _) as screenshots =>
      let game_state :=
        {| gs_screenshots := Some (Py.slice_from (-1) screenshots);
           gs_message := None;
           gs_game_name := current_game self;
           gs_additional_context := Some "{}" |} in
      let '(response, client) := analyze reply game_state (ai_client self) in
      let self := set_ai_client client self in
      if Py.truthy response
      then ui_put (add_message response true) self
      else self
  end.

(** What the world supplies to one iteration of [_analysis_loop]: the
    remote's answer to the request for the pending message (if one is
    sent), its answer to the automatic request (if one is sent), and the
    clock reading [current_time = time.time()]. *)
Record Tick : Type := {
  message_reply : RemoteOutcome;
  auto_reply : RemoteOutcome;
  current_time : Q
}.

(** One iteration of the [while self.running] loop of [_analysis_loop].
    The screenshot store is the one of [self] throughout the iteration:
    the capture thread is interleaved between iterations. *)
Definition _analysis_loop_iteration (tick : Tick) (self : GamePartner) : GamePartner :=
  let self :=
    match message_queue self with
    | message :: rest =>
        _process_message (message_reply tick) message (set_message_queue rest self)
    | [] => self
    end in
  if Qle_bool (analysis_cooldown self) (current_time tick - last_analysis_time self)
  then
    match get_recent_screenshots (screen_capture self) 1 with
    | _ :: _ =>
        set_last_analysis_time (current_time tick)
          (_analyze_game_state (auto_reply tick) self)
    | [] => self
    end
  else self.

(** [_analysis_loop] over successive ticks, for as long as [running]. *)
Fixpoint _analysis_loop (ticks : list Tick) (self : GamePartner) : GamePartner :=
  match ticks with
  | [] => self
  | tick :: later =>
      if running self
      then _analysis_loop later (_analysis_loop_iteration tick self)
      else self
  end.

(** The capture thread between two iterations of the analysis loop. *)
Definition capture (img : option Screenshot) (self : GamePartner) : GamePartner :=
  set_screen_capture (fst (_capture_loop_iteration img (screen_capture self))) self.

(** The requests that [self.ai_client] has sent. *)
Definition sent (self : GamePartner) : list Request := requests (ai_client self).

(** The dialogue history. *)
Definition history (self : GamePartner) : list Turn :=
  conversation_history (ai_client self).

End main_py.

(* ================================================================== *)
(** ** Notions used to state the properties *)
(* ================================================================== *)

Module Props.

Import screen_capture_py ai_client_py main_py.

(** The [n] most recent entries of a list (its last [n] elements). *)
Definition last_n {A : Type} (n : Z) (l : list A) : list A :=
  skipn (length l - Z.to_nat n) l.

(** A request made for a user's message, and one made by the periodic
    check. *)
Definition for_message (m : string) (r : Request) : Prop :=
  gs_message (req_state r) = Some m.

Definition automatic (r : Request) : Prop :=
  gs_message (req_state r) = None.

(** The text that [analyze] returns for an exception with message [msg]. *)
Definition error_text (msg : string) : string :=
  ("Error analyzing game state: " ++ msg)%string.

(** The game state that [_process_message] builds for [message], and the
    one that [_analyze_game_state] builds. *)
Definition message_state (self : GamePartner) (message : string) : GameState :=
  {| gs_screenshots :=
       Some (Py.slice_from (-1) (get_recent_screenshots (screen_capture self) 1));
     gs_message := Some message;
     gs_game_name := current_game self;
     gs_additional_context := Some "{}" |}.

Definition automatic_state (self : GamePartner) : GameState :=
  {| gs_screenshots :=
       Some (Py.slice_from (-1) (get_recent_screenshots (screen_capture self) 1));
     gs_message := None;
     gs_game_name := current_game self;
     gs_additional_context := Some "{}" |}.

(** The first half of an iteration of the analysis loop: the inbox is
    polled and a pending message, if any, is processed. *)
Definition poll_inbox (tick : Tick) (self : GamePartner) : GamePartner :=
  match message_queue self with
  | message :: rest =>
      _process_message (message_reply tick) message (set_message_queue rest self)
  | [] => self
  end.

(** The test of the periodic check:
    [current_time - self.last_analysis_time >= self.analysis_cooldown]. *)
Definition cooldown_elapsed (tick : Tick) (self : GamePartner) : bool :=
  Qle_bool (analysis_cooldown self) (current_time tick - last_analysis_time self).

(** What a coordinator step leaves alone: the store, the inbox, the
    pacing state and the [running] flag. *)
Definition same_frame (a b : GamePartner) : Prop :=
  screen_capture a = screen_capture b /\
  message_queue a = message_queue b /\
  current_game a = current_game b /\
  last_analysis_time a = last_analysis_time b /\
  analysis_cooldown a = analysis_cooldown b /\
  running a = running b.

(** An instruction that shows an error text of [analyze]. *)
Definition shows_error (update : UiInstruction) : bool :=
  match update with
  | add_message t true => prefix "Error analyzing game state:" t
  | _ => false
  end.

(** A remote answer from which [response.content[0].text] can be read. *)
Definition has_text (reply : RemoteOutcome) : Prop :=
  match reply with
  | Returns [] => False
  | Returns (_ :: _) => True
  | Raises _ => True
  end.

(** A sequence of [analyze] calls on one client, each with the remote's
    answer. *)
Fixpoint analyze_all (calls : list (RemoteOutcome * GameState)) (self : AIClient)
  : AIClient :=
  match calls with
  | [] => self
  | (reply, game_state) :: later =>
      analyze_all later (snd (analyze reply game_state self))
  end.

(** The exchanges (prompt, then reply) of the calls of a sequence that the
    remote answered, in order: the dialogue if nothing were ever trimmed.
    The prompt quotes [max_response_length self], which no call changes. *)
Fixpoint exchanges (self : AIClient) (calls : list (RemoteOutcome * GameState))
  : list (Turn * Turn) :=
  match calls with
  | [] => []
  | (Returns (t :: _), game_state) :: later =>
      match gs_screenshots game_state with
      | Some shots =>
          (user_turn (human_message self game_state shots), assistant_turn t)
            :: exchanges self later
      | None => exchanges self later
      end
  | _ :: later => exchanges self later
  end.

(** The turns of a list of exchanges. *)
Fixpoint turns_of (l : list (Turn * Turn)) : list Turn :=
  match l with
  | [] => []
  | (u, a) :: later => u :: a :: turns_of later
  end.

End Props.

(* ================================================================== *)
(** ** Concrete scenarios *)
(* ================================================================== *)

Module Scenario.

Import screen_capture_py ai_client_py main_py.

Definition shot_a : Screenshot := {| image_path := "screenshot_1.png"; timestamp := 1%Q |}.
Definition shot_b : Screenshot := {| image_path := "screenshot_2.png"; timestamp := 2%Q |}.

(** A store with two screenshots and room for five. *)
Definition two_shots : ScreenCapture :=
  {| screenshots := [shot_a; shot_b]; max_screenshots := 5; removed := [] |}.

Definition config : Config :=
  {| cooldown_seconds := 5%Q;
     cfg_max_screenshots := 5;
     memory_window_size := 3;
     cfg_max_response_length := 150 |}.

(** A fresh client with a window of three exchanges. *)
Definition client : AIClient := ai_client_py.init 3 150.

(** The game state of an automatic analysis of one screenshot. *)
Definition auto_state : GameState :=
  {| gs_screenshots := Some [shot_b];
     gs_message := None;
     gs_game_name := None;
     gs_additional_context := Some "{}" |}.

(** A freshly started coordinator whose store is still empty, with the
    user's message "hello" in the inbox. *)
Definition hello_no_screenshot : GamePartner := put_message "hello" (init config).

(** The same after the capture thread stored two screenshots. *)
Definition hello_pending : GamePartner :=
  capture (Some shot_b) (capture (Some shot_a) hello_no_screenshot).

(** A tick at clock reading 10 (the cooldown of 5 has elapsed since 0) in
    which the remote answers both requests. *)
Definition tick_both_answered : Tick :=
  {| message_reply := Returns ["hi"];
     auto_reply := Returns ["Waiting for gameplay..."];
     current_time := 10%Q |}.

(** A tick at clock reading 1 (inside the cooldown) in which the remote
    call fails. *)
Definition tick_remote_fails : Tick :=
  {| message_reply := Raises "Connection error.";
     auto_reply := Raises "Connection error.";
     current_time := 1%Q |}.

(** A tick at clock reading 10 (cooldown elapsed) in which every remote
    call fails. *)
Definition tick_remote_fails_late : Tick :=
  {| message_reply := Raises "Connection error.";
     auto_reply := Raises "Connection error.";
     current_time := 10%Q |}.

(** A tick at clock reading 1 in which the remote answers. *)
Definition tick_early : Tick :=
  {| message_reply := Returns ["hi"];
     auto_reply := Returns ["Waiting for gameplay..."];
     current_time := 1%Q |}.

End Scenario.

(* ================================================================== *)
(** ** More Python primitives *)
(* ================================================================== *)

Module PyStr.

(** [c.isspace()] for a character of code point below 256: the ASCII
    white space 9..13 and 32, the separators 28..31, NEL (133) and the
    no-break space (160).  A text is the sequence of its code points, and
    the strings here hold code points below 256. *)
Definition isspace (c : ascii) : bool :=
  let n := nat_of_ascii c in
  ((9 <=? n) && (n <=? 13) || (28 <=? n) && (n <=? 32)
   || (n =? 133) || (n =? 160))%nat.

(** [s.lstrip()], [s.rstrip()] and [s.strip()]. *)
Fixpoint lstrip (s : string) : string :=
  match s with
  | EmptyString => EmptyString
  | String c rest => if isspace c then lstrip rest else s
  end.

Fixpoint rstrip (s : string) : string :=
  match s with
  | EmptyString => EmptyString
  | String c rest =>
      match rstrip rest with
      | EmptyString => if isspace c then EmptyString else String c EmptyString
      | kept => String c kept
      end
  end.

Definition strip (s : string) : string := rstrip (lstrip s).

(** [l.index(x)]: the position of the first element equal to [x];
    [None] stands for the [ValueError] of an absent element. *)
Fixpoint index (x : string) (l : list string) : option nat :=
  match l with
  | [] => None
  | y :: rest =>
      if String.eqb y x then Some 0%nat
      else option_map S (index x rest)
  end.

End PyStr.

(* ================================================================== *)
(** ** overlay.py *)
(* ================================================================== *)

Module overlay_py.

(** [GameOverlay.POSITION_CYCLE]. *)
Definition POSITION_CYCLE : list string :=
  ["bottom-right"; "bottom-middle"; "bottom-left"; "left-middle";
   "top-left"; "top-middle"; "top-right"; "right-middle"].

(** A message frame of the overlay: the label with the time and the label
    with the text.  [add_message] builds both labels the same way for a
    user's and for an AI message. *)
Record MessageFrame : Type := {
  frame_time : Q;
  frame_text : string
}.

(** [GameOverlay], as far as its methods read and write it.  The calls
    into the toolkit are taken to return normally.
    - [visible_messages], [width] and [height] are the integers of the
      configuration section [Overlay];
    - [geometry] is the position last given to [self.geometry], if any;
    - [destroyed] is the trace of the frames that [update_messages]
      destroyed, oldest first;
    - [input_shown] tells whether [input_frame] is packed, and
      [input_entry] is the text in the entry widget;
    - [is_visible] is the attribute of that name, and [mapped] is the
      state of the window itself: on the screen, or withdrawn from it.
      [self.withdraw()] and [self.deiconify()] write [mapped] only. *)
Record GameOverlay : Type := {
  messages : list MessageFrame;
  destroyed : list MessageFrame;
  visible_messages : Z;
  width : Z;
  height : Z;
  position : string;
  geometry : option (Z * Z);
  is_visible : bool;
  input_shown : bool;
  input_entry : string;
  has_message_callback : bool;
  mapped : bool
}.

(** [GameOverlay.__init__], before its call of [update_position]:
    [start] is the configured position, ["bottom-right"] if there is
    none.  A new root window is on the screen. *)
Definition init (visible w h : Z) (start : option string) : GameOverlay :=
  {| messages := [];
     destroyed := [];
     visible_messages := visible;
     width := w;
     height := h;
     position := match start with Some p => p | None => "bottom-right" end;
     geometry := None;
     is_visible := true;
     input_shown := false;
     input_entry := "";
     has_message_callback := false;
     mapped := true |}.

Definition set_messages (kept gone : list MessageFrame) (self : GameOverlay)
  : GameOverlay :=
  {| messages := kept;
     destroyed := gone;
     visible_messages := visible_messages self;
     width := width self;
     height := height self;
     position := position self;
     geometry := geometry self;
     is_visible := is_visible self;
     input_shown := input_shown self;
     input_entry := input_entry self;
     has_message_callback := has_message_callback self;
     mapped := mapped self |}.

Definition set_position (p : string) (self : GameOverlay) : GameOverlay :=
  {| messages := messages self;
     destroyed := destroyed self;
     visible_messages := visible_messages self;
     width := width self;
     height := height self;
     position := p;
     geometry := geometry self;
     is_visible := is_visible self;
     input_shown := input_shown self;
     input_entry := input_entry self;
     has_message_callback := has_message_callback self;
     mapped := mapped self |}.

Definition set_geometry (g : Z * Z) (self : GameOverlay) : GameOverlay :=
  {| messages := messages self;
     destroyed := destroyed self;
     visible_messages := visible_messages self;
     width := width self;
     height := height self;
     position := position self;
     geometry := Some g;
     is_visible := is_visible self;
     input_shown := input_shown self;
     input_entry := input_entry self;
     has_message_callback := has_message_callback self;
     mapped := mapped self |}.

Definition set_is_visible (b : bool) (self : GameOverlay) : GameOverlay :=
  {| messages := messages self;
     destroyed := destroyed self;
     visible_messages := visible_messages self;
     width := width self;
     height := height self;
     position := position self;
     geometry := geometry self;
     is_visible := b;
     input_shown := input_shown self;
     input_entry := input_entry self;
     has_message_callback := has_message_callback self;
     mapped := mapped self |}.

Definition set_input (shown : bool) (entry : string) (self : GameOverlay)
  : GameOverlay :=
  {| messages := messages self;
     destroyed := destroyed self;
     visible_messages := visible_messages self;
     width := width self;
     height := height self;
     position := position self;
     geometry := geometry self;
     is_visible := is_visible self;
     input_shown := shown;
     input_entry := entry;
     has_message_callback := has_message_callback self;
     mapped := mapped self |}.

Definition set_mapped (b : bool) (self : GameOverlay) : GameOverlay :=
  {| messages := messages self;
     destroyed := destroyed self;
     visible_messages := visible_messages self;
     width := width self;
     height := height self;
     position := position self;
     geometry := geometry self;
     is_visible := is_visible self;
     input_shown := input_shown self;
     input_entry := input_entry self;
     has_message_callback := has_message_callback self;
     mapped := b |}.

(** [self.withdraw()] takes the window off the screen and
    [self.deiconify()] puts it on the screen. *)
Definition withdraw (self : GameOverlay) : GameOverlay := set_mapped false self.

Definition deiconify (self : GameOverlay) : GameOverlay := set_mapped true self.

(** [set_message_callback]. *)
Definition set_message_callback (self : GameOverlay) : GameOverlay :=
  {| messages := messages self;
     destroyed := destroyed self;
     visible_messages := visible_messages self;
     width := width self;
     height := height self;
     position := position self;
     geometry := geometry self;
     is_visible := is_visible self;
     input_shown := input_shown self;
     input_entry := input_entry self;
     has_message_callback := true;
     mapped := mapped self |}.

(** [update_messages]: the oldest frames are popped and destroyed while
    there are more than [visible_messages].  An [IndexError] of [pop] (a
    negative bound) ends the loop in the method's own handler. *)
Definition update_messages (self : GameOverlay) : GameOverlay :=
  let '(popped, rest, _) :=
    Py.pop_while_longer (visible_messages self) (messages self) in
  set_messages rest (destroyed self ++ popped) self.

(** [add_message]: the frame is appended and the list trimmed.  The
    argument [is_ai] is not used by the method. *)
Definition add_message (text : string) (timestamp : Q) (is_ai : bool)
    (self : GameOverlay) : GameOverlay :=
  let frame := {| frame_time := timestamp; frame_text := text |} in
  update_messages (set_messages (messages self ++ [frame]) (destroyed self) self).

(** The coordinates that [update_position] computes for a position name,
    from the screen size and the window size; [//] is floor division. *)
Definition side_padding : Z := 40.

Definition place (position : string) (screen_width screen_height
    window_width window_height : Z) : Z * Z :=
  if String.eqb position "top-left" then
    (side_padding, side_padding)
  else if String.eqb position "top-middle" then
    ((screen_width - window_width) / 2, side_padding)
  else if String.eqb position "top-right" then
    (screen_width - window_width - side_padding, side_padding)
  else if String.eqb position "right-middle" then
    (screen_width - window_width - side_padding,
     (screen_height - window_height) / 2)
  else if String.eqb position "bottom-right" then
    (screen_width - window_width - side_padding,
     screen_height - window_height - 40)
  else if String.eqb position "bottom-middle" then
    ((screen_width - window_width) / 2, screen_height - window_height - 40)
  else if String.eqb position "bottom-left" then
    (side_padding, screen_height - window_height - 40)
  else if String.eqb position "left-middle" then
    (side_padding, (screen_height - window_height) / 2)
  else
    (side_padding, side_padding).

(** [update_position]; [screen] is what [winfo_screenwidth] and
    [winfo_screenheight] return. *)
Definition update_position (screen : Z * Z) (self : GameOverlay) : GameOverlay :=
  let xy := place (position self) (fst screen) (snd screen)
              (width self) (height self) in
  update_messages (set_geometry xy self).

(** [cycle_position]: the next name of the cycle, or, in the handler of
    [ValueError], the first name when the current one is not in the
    cycle. *)
Definition cycle_position (screen : Z * Z) (self : GameOverlay) : GameOverlay :=
  match PyStr.index (position self) POSITION_CYCLE with
  | Some current_idx =>
      let next_idx := ((current_idx + 1) mod length POSITION_CYCLE)%nat in
      update_position screen
        (set_position (nth next_idx POSITION_CYCLE "") self)
  | None =>
      update_position screen (set_position (nth 0 POSITION_CYCLE "") self)
  end.

(** [toggle_visibility]: the window is withdrawn, or put back on the
    screen and positioned, and the attribute follows. *)
Definition toggle_visibility (screen : Z * Z) (self : GameOverlay) : GameOverlay :=
  if is_visible self
  then set_is_visible false (withdraw self)
  else set_is_visible true (update_position screen (deiconify self)).

(** [show_input] and [hide_input]: the entry is emptied both times.
    [show_input] also puts the window on the screen ([self.deiconify()],
    [self.lift()]) and does not write [is_visible]; [hide_input] leaves
    the window where it is. *)
Definition show_input (self : GameOverlay) : GameOverlay :=
  set_input true "" (deiconify self).

Definition hide_input (self : GameOverlay) : GameOverlay := set_input false "" self.

(** The user edits the entry widget: its text becomes [typed]. *)
Definition type_text (typed : string) (self : GameOverlay) : GameOverlay :=
  set_input (input_shown self) typed self.

(** [_on_submit]: the overlay after the call, and the message handed to
    the callback, if one was. *)
Definition _on_submit (self : GameOverlay) : GameOverlay * option string :=
  let message := PyStr.strip (input_entry self) in
  (hide_input self,
   if Py.truthy message && has_message_callback self then Some message else None).

End overlay_py.

(* ================================================================== *)
(** ** input_dialog.py *)
(* ================================================================== *)

Module input_dialog_py.

(** [InputDialog]: the visibility flag, the text of the entry widget, and
    the queue that the dialog was given. *)
Record InputDialog : Type := {
  is_visible : bool;
  text_input : string;
  message_queue : list string
}.

(** [hide]. *)
Definition hide (self : InputDialog) : InputDialog :=
  {| is_visible := false;
     text_input := text_input self;
     message_queue := message_queue self |}.

(** [__init__]: the window is hidden at the end. *)
Definition init (queue : list string) : InputDialog :=
  hide {| is_visible := false; text_input := ""; message_queue := queue |}.

(** [show]. *)
Definition show (self : InputDialog) : InputDialog :=
  if is_visible self then self
  else {| is_visible := true; text_input := ""; message_queue := message_queue self |}.

(** [toggle]. *)
Definition toggle (self : InputDialog) : InputDialog :=
  if is_visible self then hide self else show self.

(** The user edits the entry widget. *)
Definition type_text (typed : string) (self : InputDialog) : InputDialog :=
  {| is_visible := is_visible self;
     text_input := typed;
     message_queue := message_queue self |}.

(** [_submit]. *)
Definition _submit (self : InputDialog) : InputDialog :=
  let text := PyStr.strip (text_input self) in
  if Py.truthy text
  then hide {| is_visible := is_visible self;
               text_input := "";
               message_queue := message_queue self ++ [text] |}
  else self.

(** What a user can do with the dialog. *)
Inductive Action : Type :=
| Type_ (typed : string)
| Submit
| Toggle
| Show
| Hide.

Definition act (a : Action) (self : InputDialog) : InputDialog :=
  match a with
  | Type_ typed => type_text typed self
  | Submit => _submit self
  | Toggle => toggle self
  | Show => show self
  | Hide => hide self
  end.

Fixpoint acts (l : list Action) (self : InputDialog) : InputDialog :=
  match l with
  | [] => self
  | a :: later => acts later (act a self)
  end.

End input_dialog_py.

(* ================================================================== *)
(** ** main.py: hotkeys, the UI pump and the three threads *)
(* ================================================================== *)

Module main_ui_py.

Import screen_capture_py ai_client_py main_py.

(** The keys that [on_press] tells apart ([pynput.keyboard.Key]), and all
    the others. *)
Inductive Key : Type :=
| Key_ctrl_l
| Key_shift
| Key_end
| Key_home
| Key_enter
| Key_other (code : nat).

Definition Key_eq_dec (a b : Key) : {a = b} + {a <> b}.
Proof. decide equality. apply Nat.eq_dec. Defined.

(** [key in self.pressed_keys], [self.pressed_keys.add(key)] and
    [self.pressed_keys.discard(key)] on a set kept as a list. *)
Definition key_in (key : Key) (pressed : list Key) : bool :=
  if in_dec Key_eq_dec key pressed then true else false.

Definition key_add (key : Key) (pressed : list Key) : list Key :=
  if in_dec Key_eq_dec key pressed then pressed else key :: pressed.

Definition key_discard (key : Key) (pressed : list Key) : list Key :=
  remove Key_eq_dec key pressed.

(** The application: the coordinator object, its overlay window, and the
    set [pressed_keys] of the hotkey listener. *)
Record App : Type := {
  partner : GamePartner;
  overlay : overlay_py.GameOverlay;
  pressed_keys : list Key
}.

Definition set_partner (p : GamePartner) (app : App) : App :=
  {| partner := p; overlay := overlay app; pressed_keys := pressed_keys app |}.

Definition set_overlay (o : overlay_py.GameOverlay) (app : App) : App :=
  {| partner := partner app; overlay := o; pressed_keys := pressed_keys app |}.

Definition set_pressed_keys (keys : list Key) (app : App) : App :=
  {| partner := partner app; overlay := overlay app; pressed_keys := keys |}.

(** The settings of the section [Overlay] that the window reads. *)
Record OverlayConfig : Type := {
  cfg_visible_messages : Z;
  cfg_width : Z;
  cfg_height : Z;
  cfg_position : option string
}.

(** The application once [run] has installed the message callback and
    shown the overlay ([self.overlay.deiconify()]).  [screen] is the
    screen size at the call of [update_position] that ends
    [GameOverlay.__init__]. *)
Definition start (config : Config) (window : OverlayConfig) (screen : Z * Z) : App :=
  {| partner := main_py.init config;
     overlay := overlay_py.deiconify
                  (overlay_py.set_message_callback
                     (overlay_py.update_position screen
                        (overlay_py.init (cfg_visible_messages window) (cfg_width window)
                           (cfg_height window) (cfg_position window))));
     pressed_keys := [] |}.

(** [on_press] of [setup_hotkeys]. *)
Definition on_press (key : Key) (app : App) : App :=
  let pressed := key_add key (pressed_keys app) in
  let app := set_pressed_keys pressed app in
  if key_in Key_ctrl_l pressed && key_in Key_shift pressed then
    match key with
    | Key_end => set_partner (ui_put toggle_visibility (partner app)) app
    | Key_home => set_partner (ui_put cycle_position (partner app)) app
    | Key_enter => set_partner (ui_put show_input (partner app)) app
    | _ => app
    end
  else app.

(** [on_release] of [setup_hotkeys]. *)
Definition on_release (key : Key) (app : App) : App :=
  set_pressed_keys (key_discard key (pressed_keys app)) app.

(** A queued closure run by the UI thread.  [now] is the clock reading of
    the closure of [add_message], [screen] the screen size that the
    window reports. *)
Definition run_update (now : Q) (screen : Z * Z) (update : UiInstruction)
    (o : overlay_py.GameOverlay) : overlay_py.GameOverlay :=
  match update with
  | add_message text is_ai => overlay_py.add_message text now is_ai o
  | toggle_visibility => overlay_py.toggle_visibility screen o
  | cycle_position => overlay_py.cycle_position screen o
  | show_input => overlay_py.show_input o
  end.

(** The closures of a queue run in turn; [clock i] is the clock reading
    while the closure number [i] runs. *)
Fixpoint run_updates (clock : nat -> Q) (screen : Z * Z) (i : nat)
    (updates : list UiInstruction) (o : overlay_py.GameOverlay)
  : overlay_py.GameOverlay :=
  match updates with
  | [] => o
  | update :: later =>
      run_updates clock screen (S i) later (run_update (clock i) screen update o)
  end.

(** [process_updates] of [run] (and [_process_ui_updates]): the queue is
    emptied with [get_nowait], oldest first, and each closure is called. *)
Definition process_updates (clock : nat -> Q) (screen : Z * Z) (app : App) : App :=
  set_overlay
    (run_updates clock screen 0 (ui_update_queue (partner app)) (overlay app))
    (set_partner (set_ui_update_queue [] (partner app)) app).

(** [<Return>] in the entry: [_on_submit], whose callback is
    [lambda msg: self.message_queue.put(msg)]. *)
Definition submit_entry (app : App) : App :=
  let '(o, delivered) := overlay_py._on_submit (overlay app) in
  let app := set_overlay o app in
  match delivered with
  | Some msg => set_partner (put_message msg (partner app)) app
  | None => app
  end.

(** What happens to the application, one event at a time: the three
    threads (analysis loop, capture loop, hotkey listener) and the UI
    thread with the user at the entry. *)
Inductive Event : Type :=
| Analysis (tick : Tick)
| Capture (img : option Screenshot)
| Press (key : Key)
| Release (key : Key)
| Typed (text : string)
| Return
| Escape
| Pump (clock : nat -> Q) (screen : Z * Z).

Definition handle (e : Event) (app : App) : App :=
  match e with
  | Analysis tick =>
      if running (partner app)
      then set_partner (_analysis_loop_iteration tick (partner app)) app
      else app
  | Capture img => set_partner (capture img (partner app)) app
  | Press key => on_press key app
  | Release key => on_release key app
  | Typed text => set_overlay (overlay_py.type_text text (overlay app)) app
  | Return => submit_entry app
  | Escape => set_overlay (overlay_py.hide_input (overlay app)) app
  | Pump clock screen => process_updates clock screen app
  end.

Fixpoint handle_all (events : list Event) (app : App) : App :=
  match events with
  | [] => app
  | e :: later => handle_all later (handle e app)
  end.

End main_ui_py.

Module AppScenario.

Import main_py main_ui_py.

Definition window : OverlayConfig :=
  {| cfg_visible_messages := 5;
     cfg_width := 400;
     cfg_height := 300;
     cfg_position := None |}.

(** The application just started, on a screen of 1920 by 1080. *)
Definition started : App := start Scenario.config window (1920, 1080).

(** The same once the capture thread has stored a screenshot. *)
Definition ready : App :=
  handle (Capture (Some Scenario.shot_a)) started.

End AppScenario.

(* ================================================================== *)
(** ** Notions used to state the further properties *)
(* ================================================================== *)

Module Runs.

Import screen_capture_py ai_client_py main_py Props main_ui_py.

(** The user texts of a list of requests, in order. *)
Fixpoint user_texts (l : list Request) : list string :=
  match l with
  | [] => []
  | r :: later =>
      match gs_message (req_state r) with
      | Some m => m :: user_texts later
      | None => user_texts later
      end
  end.

(** The number of automatic requests in a list of requests. *)
Fixpoint automatic_count (l : list Request) : nat :=
  match l with
  | [] => 0%nat
  | r :: later =>
      match gs_message (req_state r) with
      | Some _ => automatic_count later
      | None => S (automatic_count later)
      end
  end.

(** What the three producers of the coordinator do, one step at a time:
    an iteration of the analysis loop, an iteration of the capture loop,
    and the message callback called with a text. *)
Inductive Step : Type :=
| Iterate (tick : Tick)
| Grab (img : option Screenshot)
| Put (msg : string).

Definition step (s : Step) (self : GamePartner) : GamePartner :=
  match s with
  | Iterate tick =>
      if running self then _analysis_loop_iteration tick self else self
  | Grab img => capture img self
  | Put msg => put_message msg self
  end.

Fixpoint steps (l : list Step) (self : GamePartner) : GamePartner :=
  match l with
  | [] => self
  | s :: later => steps later (step s self)
  end.

(** The texts that the callback was called with, in order. *)
Fixpoint puts (l : list Step) : list string :=
  match l with
  | [] => []
  | Put msg :: later => msg :: puts later
  | _ :: later => puts later
  end.

(** Whether the store holds a screenshot. *)
Definition store_inhabited (self : GamePartner) : bool :=
  match screenshots (screen_capture self) with
  | [] => false
  | _ :: _ => true
  end.

(** The clock readings of the iterations of a run in which the periodic
    check was passed with a screenshot in the store.  The test reads the
    cooldown, the time of the last analysis and the store, which
    processing a pending message earlier in the iteration leaves as they
    were at its start. *)
Fixpoint check_times (l : list Step) (self : GamePartner) : list Q :=
  match l with
  | [] => []
  | s :: later =>
      match s with
      | Iterate tick =>
          if running self && cooldown_elapsed tick self && store_inhabited self
          then current_time tick :: check_times later (step s self)
          else check_times later (step s self)
      | _ => check_times later (step s self)
      end
  end.

(** Clock readings that are each at least [gap] after the one before,
    the first at least [gap] after [previous]. *)
Fixpoint spaced (gap previous : Q) (times : list Q) : Prop :=
  match times with
  | [] => True
  | t :: later => (previous + gap <= t)%Q /\ spaced gap t later
  end.

(** Roles that alternate, beginning with [expected]. *)
Fixpoint alternates (expected : Role) (turns : list Turn) : bool :=
  match turns with
  | [] => true
  | turn :: later =>
      match expected, role turn with
      | user, user => alternates assistant later
      | assistant, assistant => alternates user later
      | _, _ => false
      end
  end.

(** A [messages] argument that the remote accepts as a dialogue: roles
    alternate from a user turn to a user turn. *)
Definition dialogue (turns : list Turn) : Prop :=
  alternates user turns = true /\
  option_map role (last (map Some turns) None) = Some user.

(** A text as [_on_submit] and [_submit] queue it: not empty, and without
    white space at either end. *)
Definition stripped (m : string) : Prop :=
  Py.truthy m = true /\ PyStr.strip m = m.

(** The frames that the closures of [add_message] in a queue create, the
    closure number [i] at clock reading [clock i]. *)
Fixpoint frames_of (clock : nat -> Q) (i : nat) (updates : list UiInstruction)
  : list overlay_py.MessageFrame :=
  match updates with
  | [] => []
  | add_message text _ :: later =>
      {| overlay_py.frame_time := clock i; overlay_py.frame_text := text |}
        :: frames_of clock (S i) later
  | _ :: later => frames_of clock (S i) later
  end.

(** The instruction of a hotkey, if the key is one. *)
Definition hotkey (key : Key) : option UiInstruction :=
  match key with
  | Key_end => Some toggle_visibility
  | Key_home => Some cycle_position
  | Key_enter => Some show_input
  | _ => None
  end.

(** The position name that follows [p] in the cycle, the first name of
    the cycle for a name outside it. *)
Definition next_position (p : string) : string :=
  match PyStr.index p overlay_py.POSITION_CYCLE with
  | Some i => nth ((i + 1) mod 8) overlay_py.POSITION_CYCLE ""
  | None => "bottom-right"
  end.

(** [cycle_position] called once per element of [screens], each time
    with the screen size of that moment. *)
Fixpoint cycle_times (screens : list (Z * Z)) (o : overlay_py.GameOverlay)
  : overlay_py.GameOverlay :=
  match screens with
  | [] => o
  | screen :: later => cycle_times later (overlay_py.cycle_position screen o)
  end.

(** How many closures of a queue toggle the visibility, and how many
    cycle the position. *)
Fixpoint toggles (updates : list UiInstruction) : nat :=
  match updates with
  | [] => 0%nat
  | toggle_visibility :: later => S (toggles later)
  | _ :: later => toggles later
  end.

Fixpoint cycles (updates : list UiInstruction) : nat :=
  match updates with
  | [] => 0%nat
  | cycle_position :: later => S (cycles later)
  | _ :: later => cycles later
  end.

(** The window as a machine with two bits, the attribute [is_visible]
    and whether the window is on the screen: a visibility toggle sets
    both to the negation of the attribute, showing the input puts the
    window on the screen, and the other closures leave both alone. *)
Definition window_step (update : UiInstruction) (w : bool * bool) : bool * bool :=
  match update with
  | toggle_visibility => (negb (fst w), negb (fst w))
  | show_input => (fst w, true)
  | _ => w
  end.

Fixpoint window_after (updates : list UiInstruction) (w : bool * bool)
  : bool * bool :=
  match updates with
  | [] => w
  | update :: later => window_after later (window_step update w)
  end.

(** A text made of white space only (the empty text included). *)
Fixpoint blank (s : string) : bool :=
  match s with
  | EmptyString => true
  | String c rest => PyStr.isspace c && blank rest
  end.

(** The hotkey listener as a machine with two flags, "left control is
    down" and "shift is down": the instructions that a sequence of
    keyboard events queues. *)
Definition flag_after_press (watched key : Key) (flag : bool) : bool :=
  if Key_eq_dec key watched then true else flag.

Definition flag_after_release (watched key : Key) (flag : bool) : bool :=
  if Key_eq_dec key watched then false else flag.

Fixpoint hotkeys_fired (ctrl shift : bool) (events : list Event)
  : list UiInstruction :=
  match events with
  | [] => []
  | Press key :: later =>
      let ctrl := flag_after_press Key_ctrl_l key ctrl in
      let shift := flag_after_press Key_shift key shift in
      match (if ctrl && shift then hotkey key else None) with
      | Some update => update :: hotkeys_fired ctrl shift later
      | None => hotkeys_fired ctrl shift later
      end
  | Release key :: later =>
      hotkeys_fired (flag_after_release Key_ctrl_l key ctrl)
        (flag_after_release Key_shift key shift) later
  | _ :: later => hotkeys_fired ctrl shift later
  end.

(** An event of the keyboard. *)
Definition keyboard (e : Event) : Prop :=
  match e with
  | Press _ | Release _ => True
  | _ => False
  end.

End Runs.
Import screen_capture_py ai_client_py main_py Props.

(* ================================================================== *)
(** ** Lemmas on the Python primitives *)
(* ================================================================== *)

Lemma pop_while_longer_split {A : Type} (limit : Z) (l : list A) :
  fst (fst (Py.pop_while_longer limit l)) ++ snd (fst (Py.pop_while_longer limit l)) = l.
Proof.
  induction l as [|x t IH]; [reflexivity|].
  cbn [Py.pop_while_longer].
  destruct (Z.of_nat (length (x :: t)) >? limit); [|reflexivity].
  destruct (Py.pop_while_longer limit t) as [[popped rest] raised].
  cbn in *. now rewrite IH.
Qed.

(** With a limit that is not negative the loop never pops from an empty
    list, and it leaves the last [limit] elements. *)
Lemma pop_while_longer_nonneg {A : Type} (limit : Z) (l : list A) :
  0 <= limit ->
  Py.pop_while_longer limit l =
    (firstn (length l - Z.to_nat limit) l, last_n limit l, false).
Proof.
  intros Hlim. unfold last_n.
  induction l as [|x t IH].
  - cbn. destruct (Z.gtb_spec 0 limit); [lia|reflexivity].
  - cbn [Py.pop_while_longer].
    destruct (Z.gtb_spec (Z.of_nat (length (x :: t))) limit) as [Hgt|Hle].
    + rewrite IH. cbn [length] in *.
      replace (S (length t) - Z.to_nat limit)%nat
        with (S (length t - Z.to_nat limit))%nat by lia.
      reflexivity.
    + cbn [length] in *.
      replace (S (length t) - Z.to_nat limit)%nat with 0%nat by lia.
      reflexivity.
Qed.

(** The loop raises exactly when the limit is negative. *)
Lemma pop_while_longer_raised {A : Type} (limit : Z) (l : list A) :
  snd (Py.pop_while_longer limit l) = (limit <? 0).
Proof.
  induction l as [|x t IH].
  - cbn. destruct (Z.gtb_spec 0 limit), (Z.ltb_spec limit 0); try reflexivity; lia.
  - cbn [Py.pop_while_longer].
    destruct (Z.gtb_spec (Z.of_nat (length (x :: t))) limit) as [Hgt|Hle].
    + destruct (Py.pop_while_longer limit t) as [[popped rest] raised].
      exact IH.
    + cbn [snd length] in *. destruct (Z.ltb_spec limit 0); [lia|reflexivity].
Qed.

Lemma length_last_n {A : Type} (n : Z) (l : list A) :
  0 <= n -> Z.of_nat (length (last_n n l)) = Z.min n (Z.of_nat (length l)).
Proof.
  intros Hn. unfold last_n. rewrite length_skipn. lia.
Qed.

Lemma last_n_all {A : Type} (n : Z) (l : list A) :
  Z.of_nat (length l) <= n -> last_n n l = l.
Proof.
  intros H. unfold last_n.
  replace (length l - Z.to_nat n)%nat with 0%nat by lia. reflexivity.
Qed.

(** Trimming what was already trimmed to the same bound loses nothing
    more. *)
Lemma last_n_app_last_n {A : Type} (n : Z) (l new : list A) :
  0 <= n -> last_n n (last_n n l ++ new) = last_n n (l ++ new).
Proof.
  intros Hn. unfold last_n.
  rewrite !length_app, length_skipn.
  rewrite !skipn_app, length_skipn, skipn_skipn.
  f_equal; f_equal; lia.
Qed.

Lemma prefix_app (p s : string) : prefix p (p ++ s)%string = true.
Proof.
  induction p as [|c p IH]; cbn.
  - now destruct s.
  - destruct (Ascii.ascii_dec c c); [exact IH|congruence].
Qed.

(* ================================================================== *)
(** ** The screenshot store *)
(* ================================================================== *)

Section ScreenshotStore.

Variable max : Z.

Lemma max_screenshots_capture_loop (imgs : list (option Screenshot)) (self : ScreenCapture) :
  max_screenshots (_capture_loop imgs self) = max_screenshots self.
Proof.
  revert self. induction imgs as [|img later IH]; intros self; [reflexivity|].
  cbn [_capture_loop]. rewrite IH.
  destruct img as [shot|]; [|reflexivity].
  unfold _capture_loop_iteration.
  now destruct (Py.pop_while_longer _ _) as [[popped rest] raised].
Qed.

(** One iteration moves a prefix of the store (with the new screenshot at
    its back) to the removed files and keeps the rest. *)
Lemma capture_iteration_evicts_front (shot : Screenshot) (self : ScreenCapture) :
  exists k : nat,
    removed (fst (_capture_loop_iteration (Some shot) self))
      = removed self ++ firstn k (screenshots self ++ [shot]) /\
    screenshots (fst (_capture_loop_iteration (Some shot) self))
      = skipn k (screenshots self ++ [shot]).
Proof.
  unfold _capture_loop_iteration.
  pose proof (pop_while_longer_split (max_screenshots self) (screenshots self ++ [shot])) as Hsplit.
  destruct (Py.pop_while_longer _ _) as [[popped rest] raised].
  cbn in *. exists (length popped).
  rewrite <- Hsplit.
  rewrite firstn_app, Nat.sub_diag, firstn_all. cbn [firstn]. rewrite app_nil_r.
  rewrite skipn_app, Nat.sub_diag, skipn_all. cbn [skipn app]. auto.
Qed.

(** Nothing is lost between the store and the removed files, and the order
    of capture is kept. *)
Lemma capture_loop_conserves (imgs : list (option Screenshot)) (self : ScreenCapture) :
  removed (_capture_loop imgs self) ++ screenshots (_capture_loop imgs self)
    = removed self ++ screenshots self ++ captured imgs.
Proof.
  revert self. induction imgs as [|img later IH]; intros self.
  - cbn. now rewrite app_nil_r.
  - cbn [_capture_loop]. rewrite IH.
    destruct img as [shot|]; [|reflexivity].
    destruct (capture_iteration_evicts_front shot self) as (k & Hrem & Hkeep).
    rewrite Hrem, Hkeep. cbn [captured].
    rewrite <- app_assoc.
    rewrite (app_assoc (firstn k _)), firstn_skipn.
    now rewrite <- app_assoc.
Qed.

Lemma capture_iteration_status (shot : Screenshot) (self : ScreenCapture) :
  snd (_capture_loop_iteration (Some shot) self)
    = if max_screenshots self <? 0 then LoopError else Inserted.
Proof.
  unfold _capture_loop_iteration.
  pose proof (pop_while_longer_raised (max_screenshots self) (screenshots self ++ [shot])) as Hr.
  destruct (Py.pop_while_longer _ _) as [[popped rest] raised].
  cbn in *. now rewrite Hr.
Qed.

Lemma capture_iteration_bounded (shot : Screenshot) (self : ScreenCapture) :
  0 <= max_screenshots self ->
  screenshots (fst (_capture_loop_iteration (Some shot) self))
    = last_n (max_screenshots self) (screenshots self ++ [shot]).
Proof.
  intros Hmax. unfold _capture_loop_iteration.
  now rewrite pop_while_longer_nonneg by assumption.
Qed.

(** X1.  With a capacity that is not negative, the store holds the
    [max_screenshots] most recent captures after any run. *)
Lemma capture_loop_keeps_most_recent (imgs : list (option Screenshot))
    (self : ScreenCapture) :
  0 <= max_screenshots self ->
  Z.of_nat (length (screenshots self)) <= max_screenshots self ->
  screenshots (_capture_loop imgs self)
    = last_n (max_screenshots self) (screenshots self ++ captured imgs).
Proof.
  revert self. induction imgs as [|img later IH]; intros self Hmax Hlen.
  - cbn. rewrite app_nil_r. symmetry. now apply last_n_all.
  - cbn [_capture_loop captured]. destruct img as [shot|].
    + assert (Hsame : max_screenshots (fst (_capture_loop_iteration (Some shot) self))
                      = max_screenshots self)
        by apply (max_screenshots_capture_loop [Some shot] self).
      rewrite IH; rewrite Hsame; try assumption.
      * rewrite capture_iteration_bounded by assumption.
        rewrite last_n_app_last_n by assumption.
        now rewrite <- app_assoc.
      * rewrite capture_iteration_bounded, length_last_n by assumption. lia.
    + cbn [_capture_loop_iteration fst]. now apply IH.
Qed.

(** C7.  After any run of the capture loop from the empty store, an
    iteration that inserts a screenshot and completes its eviction loop
    leaves at most [max_screenshots] entries in the store; with a capacity
    that is not negative every inserting iteration completes.  Eviction is
    first in, first out: the iteration removes a prefix of the store, and
    the removed files followed by the store are all the captured
    screenshots in the order of capture. *)
Theorem capture_store_bounded_fifo (imgs : list (option Screenshot)) (shot : Screenshot) :
  let before := _capture_loop imgs (screen_capture_py.init max) in
  let after := fst (_capture_loop_iteration (Some shot) before) in
  let status := snd (_capture_loop_iteration (Some shot) before) in
  (status = Inserted -> Z.of_nat (length (screenshots after)) <= max) /\
  (0 <= max -> status = Inserted) /\
  (exists k : nat,
      removed after = removed before ++ firstn k (screenshots before ++ [shot]) /\
      screenshots after = skipn k (screenshots before ++ [shot])) /\
  removed after ++ screenshots after = captured imgs ++ [shot].
Proof.
  intros before after status.
  assert (Hmax : max_screenshots before = max)
    by (unfold before; now rewrite max_screenshots_capture_loop).
  assert (Hstatus : status = if max <? 0 then LoopError else Inserted)
    by (unfold status; now rewrite capture_iteration_status, Hmax).
  repeat split.
  - intros Hins. rewrite Hstatus in Hins.
    destruct (Z.ltb_spec max 0); [discriminate|].
    unfold after. rewrite capture_iteration_bounded by lia.
    rewrite Hmax, length_last_n by lia. lia.
  - intros Hnonneg. rewrite Hstatus.
    destruct (Z.ltb_spec max 0); [lia|reflexivity].
  - apply capture_iteration_evicts_front.
  - destruct (capture_iteration_evicts_front shot before) as (k & Hrem & Hkeep).
    fold after in Hrem, Hkeep. rewrite Hrem, Hkeep.
    rewrite <- app_assoc, firstn_skipn, app_assoc.
    unfold before. rewrite capture_loop_conserves. reflexivity.
Qed.

End ScreenshotStore.

(** An instance of C7: capacity two, three captures, then a fourth. *)
Lemma capture_store_bounded_fifo_witness :
  let imgs := [Some Scenario.shot_a; None; Some Scenario.shot_b; Some Scenario.shot_a] in
  let before := _capture_loop imgs (screen_capture_py.init 2) in
  let after := fst (_capture_loop_iteration (Some Scenario.shot_b) before) in
  Z.of_nat (length (screenshots after)) <= 2 /\
  screenshots after = [Scenario.shot_a; Scenario.shot_b] /\
  removed after = [Scenario.shot_a; Scenario.shot_b].
Proof.
  intros imgs before after.
  destruct (capture_store_bounded_fifo 2 imgs Scenario.shot_b)
    as (Hbound & Hcompletes & _ & _).
  split; [apply Hbound, Hcompletes; lia|].
  split; reflexivity.
Defined.

(** A positive count selects the last [count] screenshots. *)
Lemma get_recent_screenshots_positive (self : ScreenCapture) (count : Z) :
  1 <= count ->
  get_recent_screenshots self count = last_n count (screenshots self).
Proof.
  intros Hcount. unfold get_recent_screenshots, last_n, Py.slice_from.
  destruct (screenshots self) as [|s l] eqn:E; [reflexivity|].
  destruct (Z.ltb_spec (- count) 0); [|lia].
  f_equal. lia.
Qed.

Lemma get_recent_screenshots_length (self : ScreenCapture) (count : Z) :
  1 <= count ->
  Z.of_nat (length (get_recent_screenshots self count)) <= count.
Proof.
  intros Hcount. rewrite get_recent_screenshots_positive, length_last_n by lia. lia.
Qed.

(** With count zero the slice [screenshots[-0:]] is the whole list. *)
Lemma get_recent_screenshots_zero (self : ScreenCapture) :
  get_recent_screenshots self 0 = screenshots self.
Proof.
  unfold get_recent_screenshots, Py.slice_from.
  destruct (screenshots self) as [|s l]; reflexivity.
Qed.

(** C9, at the input where the code departs from it: asked for zero
    screenshots, a store of two returns both, oldest first. *)
Theorem get_recent_screenshots_zero_returns_all :
  get_recent_screenshots Scenario.two_shots 0 = [Scenario.shot_a; Scenario.shot_b] /\
  (Z.of_nat (length (get_recent_screenshots Scenario.two_shots 0)) > 0).
Proof. split; reflexivity. Qed.

(** The query the coordinator makes: empty exactly when the store is. *)
Lemma get_recent_screenshots_1_nil (self : ScreenCapture) :
  get_recent_screenshots self 1 = [] <-> screenshots self = [].
Proof.
  rewrite get_recent_screenshots_positive by lia. unfold last_n.
  split; intros H.
  - destruct (screenshots self) as [|s l]; [reflexivity|].
    apply (f_equal (@length _)) in H. rewrite length_skipn in H. cbn [length] in H. lia.
  - now rewrite H.
Qed.

(* ================================================================== *)
(** ** The AI client *)
(* ================================================================== *)

Section Analyze.

Variables (game_state : GameState) (self : AIClient).

(** The request that [analyze] sends for [game_state] from [self]. *)
Let request_for (shots : list Screenshot) : Request :=
  {| req_state := game_state;
     req_messages := conversation_history self
                       ++ [user_turn (human_message self game_state shots)] |}.

(** Without the key ["screenshots"] nothing is sent. *)
Lemma analyze_key_error (reply : RemoteOutcome) :
  gs_screenshots game_state = None ->
  analyze reply game_state self = (error_text "'screenshots'", self).
Proof.
  intros Hkey. unfold analyze, analyze_try, bind, subscript_screenshots.
  rewrite Hkey. reflexivity.
Qed.

(** The remote call raises: the request was sent, the history is as it
    was, and the error text is returned. *)
Lemma analyze_remote_raises (shots : list Screenshot) (msg : string) :
  gs_screenshots game_state = Some shots ->
  analyze (Raises msg) game_state self
    = (error_text msg, log_request (request_for shots) self).
Proof.
  intros Hkey. unfold analyze, analyze_try, bind, subscript_screenshots.
  rewrite Hkey. reflexivity.
Qed.

(** The remote returns a message without content: the prompt has already
    been appended when [content[0]] raises. *)
Lemma analyze_empty_content (shots : list Screenshot) :
  gs_screenshots game_state = Some shots ->
  analyze (Returns []) game_state self
    = (error_text "list index out of range",
       set_history (conversation_history self
                      ++ [user_turn (human_message self game_state shots)])
         (log_request (request_for shots) self)).
Proof.
  intros Hkey. unfold analyze, analyze_try, bind, subscript_screenshots.
  rewrite Hkey. reflexivity.
Qed.

(** The remote returns text: prompt and reply are appended, and the
    history is cut to its [2 * max_history] most recent turns. *)
Lemma analyze_returns (shots : list Screenshot) (t : string) (more : list string) :
  gs_screenshots game_state = Some shots ->
  0 <= max_history self ->
  analyze (Returns (t :: more)) game_state self
    = (t,
       set_history
         (last_n (max_history self * 2)
            (conversation_history self
               ++ [user_turn (human_message self game_state shots); assistant_turn t]))
         (log_request (request_for shots) self)).
Proof.
  intros Hkey Hmax.
  unfold analyze, analyze_try, bind, subscript_screenshots.
  rewrite Hkey. cbn.
  unfold trim_history. cbn.
  rewrite pop_while_longer_nonneg by lia.
  rewrite <- app_assoc. reflexivity.
Qed.

(** With a negative window the trimming loop pops the history empty and
    raises. *)
Lemma analyze_negative_window (shots : list Screenshot) (t : string) (more : list string) :
  gs_screenshots game_state = Some shots ->
  max_history self < 0 ->
  fst (analyze (Returns (t :: more)) game_state self)
    = error_text "pop from empty list".
Proof.
  intros Hkey Hmax.
  unfold analyze, analyze_try, bind, subscript_screenshots.
  rewrite Hkey. cbn.
  unfold trim_history. cbn.
  pose proof (pop_while_longer_raised (max_history self * 2)
                ((conversation_history self
                    ++ [user_turn (human_message self game_state shots)])
                   ++ [assistant_turn t])) as Hr.
  destruct (Py.pop_while_longer _ _) as [[popped rest] raised].
  cbn in Hr. rewrite Hr.
  destruct (Z.ltb_spec (max_history self * 2) 0); [reflexivity|lia].
Qed.

(** Whatever happens, the configuration of the client is untouched. *)
Lemma analyze_config (reply : RemoteOutcome) :
  max_history (snd (analyze reply game_state self)) = max_history self /\
  max_response_length (snd (analyze reply game_state self)) = max_response_length self.
Proof.
  unfold analyze, analyze_try, bind, subscript_screenshots.
  destruct (gs_screenshots game_state) as [shots|]; [|now cbn].
  destruct reply as [[|t more]|msg]; cbn; auto.
  unfold trim_history. cbn.
  destruct (Py.pop_while_longer _ _) as [[popped rest] [|]]; cbn; auto.
Qed.

(** A call sends one request when the key ["screenshots"] is there. *)
Lemma analyze_requests (reply : RemoteOutcome) (shots : list Screenshot) :
  gs_screenshots game_state = Some shots ->
  requests (snd (analyze reply game_state self))
    = requests self ++ [request_for shots].
Proof.
  intros Hkey.
  unfold analyze, analyze_try, bind, subscript_screenshots.
  rewrite Hkey.
  destruct reply as [[|t more]|msg]; cbn; auto.
  unfold trim_history. cbn.
  destruct (Py.pop_while_longer _ _) as [[popped rest] [|]]; cbn; auto.
Qed.

(** C10.  [analyze] returns a string for every game state and every
    behaviour of the remote call: the value of its [try] block when that
    completes, and otherwise, for whatever exception the block raised
    (a remote error among them), a string that begins with
    "Error analyzing game state:". *)
Theorem analyze_never_raises (reply : RemoteOutcome) :
  exists (response : string) (self' : AIClient),
    analyze reply game_state self = (response, self') /\
    snd (analyze_try reply game_state self) = self' /\
    (forall value, fst (analyze_try reply game_state self) = inr value ->
                   response = value) /\
    (forall e, fst (analyze_try reply game_state self) = inl e ->
               response = error_text (Py.str e) /\
               prefix "Error analyzing game state:" response = true) /\
    (forall msg shots, reply = Raises msg -> gs_screenshots game_state = Some shots ->
               response = error_text msg).
Proof.
  unfold analyze.
  destruct (analyze_try reply game_state self) as [[e|value] self'] eqn:Htry.
  - exists (error_text (Py.str e)), self'. cbn [fst snd].
    split; [reflexivity|]. split; [reflexivity|].
    split; [intros value Hv; discriminate|].
    split.
    + intros e' He'. inversion He'; subst e'.
      split; [reflexivity|]. apply (prefix_app "Error analyzing game state:" _).
    + intros msg shots -> Hkey.
      unfold analyze_try, bind, subscript_screenshots in Htry.
      rewrite Hkey in Htry. cbn in Htry. now inversion Htry.
  - exists value, self'. cbn [fst snd].
    split; [reflexivity|]. split; [reflexivity|].
    split; [intros v Hv; now inversion Hv|].
    split; [intros e He; discriminate|].
    intros msg shots -> Hkey.
    unfold analyze_try, bind, subscript_screenshots in Htry.
    rewrite Hkey in Htry. cbn in Htry. discriminate.
Qed.

End Analyze.

(** The prompt of a request without user text and without game name is the
    bare analysis prompt; with user text the text is put in front. *)
Lemma human_message_automatic (self : AIClient) (game_state : GameState)
    (shots : list Screenshot) :
  gs_message game_state = None ->
  gs_game_name game_state = None ->
  human_message self game_state shots
    = base_prompt (length shots) (max_response_length self)
        (gs_additional_context game_state).
Proof. intros Hm Hg. unfold human_message. now rewrite Hm, Hg. Qed.

Lemma human_message_user_text (self : AIClient) (game_state : GameState)
    (shots : list Screenshot) (m : string) :
  gs_message game_state = Some m ->
  Py.truthy m = true ->
  gs_game_name game_state = None ->
  human_message self game_state shots
    = ("User message: " ++ m ++ Py.nl ++ Py.nl
       ++ base_prompt (length shots) (max_response_length self)
            (gs_additional_context game_state))%string.
Proof. intros Hm Ht Hg. unfold human_message. now rewrite Hm, Ht, Hg. Qed.

(** C2 fails: an automatic analysis (no user text) that the remote answers
    appends a user-role turn, the prompt, before the assistant-role
    reply. *)
Lemma automatic_analysis_appends_user_turn :
  gs_message Scenario.auto_state = None /\
  fst (analyze (Returns ["Waiting for gameplay..."]) Scenario.auto_state Scenario.client)
    = "Waiting for gameplay..." /\
  conversation_history Scenario.client = [] /\
  map role
    (conversation_history
       (snd (analyze (Returns ["Waiting for gameplay..."]) Scenario.auto_state
               Scenario.client)))
    = [user; assistant] /\
  conversation_history
    (snd (analyze (Returns ["Waiting for gameplay..."]) Scenario.auto_state
            Scenario.client))
    <> conversation_history Scenario.client ++ [assistant_turn "Waiting for gameplay..."].
Proof.
  repeat split; try reflexivity.
  vm_compute. discriminate.
Qed.

Lemma string_append_assoc (a b c : string) :
  ((a ++ b) ++ c = a ++ (b ++ c))%string.
Proof.
  induction a as [|x a IH]; [reflexivity|].
  cbn [String.append]. now rewrite IH.
Qed.

(** C2, amended.  Every [analyze] that the remote answers with text
    appends a user-role turn and then the assistant-role reply, whether
    the request has user text or not, and keeps the [2 * max_history]
    most recent turns.  The text of the user-role turn is the analysis
    prompt with, in front of it, the line of the user's text when the
    request has a user text that is not empty (and before that the line
    of the game name, when there is one); without user text the analysis
    prompt follows the game line, if any, directly. *)
Theorem analyze_appends_prompt_and_reply (game_state : GameState) (self : AIClient)
    (shots : list Screenshot) (t : string) (more : list string) :
  gs_screenshots game_state = Some shots ->
  0 <= max_history self ->
  let prompt := user_turn (human_message self game_state shots) in
  let self' := snd (analyze (Returns (t :: more)) game_state self) in
  let analysis_prompt :=
    base_prompt (length shots) (max_response_length self)
      (gs_additional_context game_state) in
  let game_line :=
    match gs_game_name game_state with
    | Some g => if Py.truthy g then ("Game: " ++ g ++ Py.nl ++ Py.nl)%string else ""
    | None => ""
    end in
  fst (analyze (Returns (t :: more)) game_state self) = t /\
  conversation_history self'
    = last_n (2 * max_history self)
        (conversation_history self ++ [prompt; assistant_turn t]) /\
  (Z.of_nat (length (conversation_history self)) + 2 <= 2 * max_history self ->
   conversation_history self'
     = conversation_history self ++ [prompt; assistant_turn t]) /\
  role prompt = user /\
  (forall m,
     gs_message game_state = Some m -> Py.truthy m = true ->
     text prompt
       = (game_line ++ "User message: " ++ m ++ Py.nl ++ Py.nl ++ analysis_prompt)%string) /\
  (Py.truthy_opt (gs_message game_state) = false ->
   text prompt = (game_line ++ analysis_prompt)%string).
Proof.
  intros Hkey Hmax prompt self' analysis_prompt game_line.
  unfold self'. rewrite (analyze_returns _ _ shots) by assumption.
  cbn [fst snd set_history conversation_history].
  replace (max_history self * 2) with (2 * max_history self) by lia.
  split; [reflexivity|]. split; [reflexivity|]. split.
  { intros Hroom. apply last_n_all. rewrite length_app. cbn [length]. lia. }
  split; [reflexivity|].
  assert (Hgame : forall rest : string,
             match gs_game_name game_state with
             | Some g => if Py.truthy g
                         then ("Game: " ++ g ++ Py.nl ++ Py.nl ++ rest)%string
                         else rest
             | None => rest
             end = (game_line ++ rest)%string).
  { intros rest. unfold game_line.
    destruct (gs_game_name game_state) as [g|]; [|reflexivity].
    destruct (Py.truthy g); [|reflexivity].
    now rewrite !string_append_assoc. }
  unfold prompt. cbn [text user_turn]. unfold human_message.
  fold analysis_prompt. rewrite Hgame.
  split.
  - intros m Hm Ht. now rewrite Hm, Ht.
  - intros Hnone. destruct (gs_message game_state) as [m|]; [|reflexivity].
    cbn [Py.truthy_opt] in Hnone. now rewrite Hnone.
Qed.

(** An instance of the amended C2: the first automatic analysis of a fresh
    client. *)
Lemma analyze_appends_prompt_and_reply_witness :
  map role
    (conversation_history
       (snd (analyze (Returns ["Waiting for gameplay..."]) Scenario.auto_state
               Scenario.client)))
    = [user; assistant].
Proof.
  destruct (analyze_appends_prompt_and_reply Scenario.auto_state Scenario.client
              [Scenario.shot_b] "Waiting for gameplay..." [] eq_refl)
    as (_ & _ & Happ & _).
  - cbn. lia.
  - rewrite Happ; [reflexivity|]. cbn. lia.
Defined.

(** C3, at the input where the code departs from it: the remote returns a
    message with no content block.  The prompt is appended, reading the
    reply's text raises, and the history is left with one turn. *)
Theorem analyze_empty_content_leaves_odd_history :
  conversation_history Scenario.client = [] /\
  fst (analyze (Returns []) Scenario.auto_state Scenario.client)
    = "Error analyzing game state: list index out of range" /\
  map role
    (conversation_history (snd (analyze (Returns []) Scenario.auto_state Scenario.client)))
    = [user] /\
  Nat.even
    (length
       (conversation_history
          (snd (analyze (Returns []) Scenario.auto_state Scenario.client))))
    = false.
Proof. repeat split. Qed.

(** *** The history window when every answer carries text

    The rest of C3 holds for the calls that never see an answer without
    content, for a window that is not negative. *)

Lemma human_message_ext (s1 s2 : AIClient) (game_state : GameState)
    (shots : list Screenshot) :
  max_response_length s1 = max_response_length s2 ->
  human_message s1 game_state shots = human_message s2 game_state shots.
Proof. intros H. unfold human_message. now rewrite H. Qed.

Lemma exchanges_ext (s1 s2 : AIClient) (calls : list (RemoteOutcome * GameState)) :
  max_response_length s1 = max_response_length s2 ->
  exchanges s1 calls = exchanges s2 calls.
Proof.
  intros H. induction calls as [|[reply game_state] later IH]; [reflexivity|].
  cbn [exchanges]. rewrite IH.
  destruct reply as [[|t more]|msg]; try reflexivity.
  destruct (gs_screenshots game_state) as [shots|]; [|reflexivity].
  now rewrite (human_message_ext s1 s2).
Qed.

Lemma length_turns_of (l : list (Turn * Turn)) :
  length (turns_of l) = (2 * length l)%nat.
Proof.
  induction l as [|[u a] later IH]; [reflexivity|].
  cbn [turns_of length]. rewrite IH. lia.
Qed.

Lemma skipn_turns_of (k : nat) (l : list (Turn * Turn)) :
  skipn (2 * k) (turns_of l) = turns_of (skipn k l).
Proof.
  revert l. induction k as [|k IH]; intros l; [reflexivity|].
  destruct l as [|[u a] later]; [reflexivity|].
  replace (2 * S k)%nat with (S (S (2 * k))) by lia.
  cbn [turns_of skipn]. apply IH.
Qed.

Lemma last_n_turns_of (W : Z) (l : list (Turn * Turn)) :
  0 <= W -> last_n (2 * W) (turns_of l) = turns_of (last_n W l).
Proof.
  intros HW. unfold last_n. rewrite length_turns_of, <- skipn_turns_of.
  f_equal. lia.
Qed.

Lemma analyze_all_window (calls : list (RemoteOutcome * GameState)) (self : AIClient) :
  0 <= max_history self ->
  Z.of_nat (length (conversation_history self)) <= 2 * max_history self ->
  Forall (fun call => has_text (fst call)) calls ->
  conversation_history (analyze_all calls self)
    = last_n (2 * max_history self)
        (conversation_history self ++ turns_of (exchanges self calls)).
Proof.
  revert self. induction calls as [|[reply game_state] later IH]; intros self HW Hlen Htext.
  - cbn. rewrite app_nil_r. symmetry. now apply last_n_all.
  - inversion Htext as [|call rest Hreply Hlater]; subst. cbn [fst] in Hreply.
    cbn [analyze_all exchanges].
    destruct (analyze_config game_state self reply) as [HmaxW HmaxL].
    pose proof (exchanges_ext (snd (analyze reply game_state self)) self later HmaxL) as Hext.
    specialize (IH (snd (analyze reply game_state self))).
    rewrite HmaxW, Hext in IH.
    destruct (gs_screenshots game_state) as [shots|] eqn:Hkey.
    + destruct reply as [[|t more]|msg]; [contradiction| |].
      * rewrite (analyze_returns _ _ shots) in IH by assumption.
        rewrite (analyze_returns _ _ shots) by assumption.
        cbn [snd set_history conversation_history] in IH |- *.
        replace (max_history self * 2) with (2 * max_history self) in IH |- * by lia.
        rewrite IH; [| assumption | rewrite length_last_n by lia; lia | assumption].
        rewrite last_n_app_last_n by lia.
        rewrite <- app_assoc. reflexivity.
      * rewrite (analyze_remote_raises _ _ shots) in IH by assumption.
        rewrite (analyze_remote_raises _ _ shots) by assumption.
        cbn [snd log_request conversation_history] in IH |- *.
        now rewrite IH.
    + rewrite analyze_key_error in IH by assumption.
      rewrite analyze_key_error by assumption.
      cbn [snd] in IH |- *. rewrite IH by assumption.
      destruct reply as [[|t more]|msg]; [contradiction|reflexivity|reflexivity].
Qed.

(** X5.  After the calls of a fresh client with window [W], the history is
    made of the [min N W] most recent of the [N] exchanges, oldest first;
    its length is even and at most [2 * W]. *)
Lemma history_holds_recent_exchanges (W L : Z)
    (calls : list (RemoteOutcome * GameState)) :
  0 <= W ->
  Forall (fun call => has_text (fst call)) calls ->
  let fresh := ai_client_py.init W L in
  let N := Z.of_nat (length (exchanges fresh calls)) in
  let h := conversation_history (analyze_all calls fresh) in
  h = turns_of (last_n W (exchanges fresh calls)) /\
  Z.of_nat (length (last_n W (exchanges fresh calls))) = Z.min N W /\
  Nat.even (length h) = true /\
  Z.of_nat (length h) <= 2 * W.
Proof.
  intros HW Htext fresh N h.
  assert (Hh : h = turns_of (last_n W (exchanges fresh calls))).
  { unfold h. rewrite analyze_all_window; [| | | assumption];
      [| unfold fresh, ai_client_py.init; cbn [max_history]; lia
       | unfold fresh, ai_client_py.init;
         cbn [max_history conversation_history length]; lia].
    change (max_history fresh) with W.
    change (conversation_history fresh) with (@nil Turn).
    now apply last_n_turns_of. }
  split; [exact Hh|].
  split; [rewrite length_last_n by lia; unfold N; lia|].
  rewrite Hh, length_turns_of.
  split.
  - rewrite Nat.even_mul. reflexivity.
  - pose proof (length_last_n W (exchanges fresh calls) HW). lia.
Qed.

(* ================================================================== *)
(** ** The coordinator *)
(* ================================================================== *)

Lemma same_frame_refl (a : GamePartner) : same_frame a a.
Proof. unfold same_frame. auto 10. Qed.

#[local] Hint Resolve same_frame_refl : core.

Section Paths.

Variables (reply : RemoteOutcome) (self : GamePartner).

Hypothesis store_not_empty : screenshots (screen_capture self) <> [].

Lemma recent_screenshot :
  exists s l, get_recent_screenshots (screen_capture self) 1 = s :: l.
Proof.
  destruct (get_recent_screenshots (screen_capture self) 1) as [|s l] eqn:E.
  - apply get_recent_screenshots_1_nil in E. contradiction.
  - eauto.
Qed.

(** [_process_message] with a screenshot at hand. *)
Lemma process_message_unfold (message : string) :
  _process_message reply message self =
    let response := fst (analyze reply (message_state self message) (ai_client self)) in
    let client := snd (analyze reply (message_state self message) (ai_client self)) in
    let echoed := ui_put (add_message message false) (set_ai_client client self) in
    if Py.truthy response then ui_put (add_message response true) echoed else echoed.
Proof.
  unfold _process_message, message_state.
  destruct recent_screenshot as (s & l & ->).
  destruct (analyze _ _ _) as [response client]. reflexivity.
Qed.

(** [_analyze_game_state] with a screenshot at hand. *)
Lemma analyze_game_state_unfold :
  _analyze_game_state reply self =
    let response := fst (analyze reply (automatic_state self) (ai_client self)) in
    let client := snd (analyze reply (automatic_state self) (ai_client self)) in
    let updated := set_ai_client client self in
    if Py.truthy response then ui_put (add_message response true) updated else updated.
Proof.
  unfold _analyze_game_state, automatic_state.
  destruct recent_screenshot as (s & l & ->).
  destruct (analyze _ _ _) as [response client]. reflexivity.
Qed.

(** Each path sends one request, tagged with the game state it built. *)
Lemma process_message_sent (message : string) :
  exists r, sent (_process_message reply message self) = sent self ++ [r] /\
            for_message message r.
Proof.
  rewrite process_message_unfold. cbv zeta.
  eexists. split.
  - destruct (Py.truthy _); unfold sent; cbn [ui_put set_ui_update_queue set_ai_client ai_client];
      apply (analyze_requests (message_state self message) (ai_client self) reply
               (Py.slice_from (-1) (get_recent_screenshots (screen_capture self) 1)));
      reflexivity.
  - reflexivity.
Qed.

Lemma analyze_game_state_sent :
  exists r, sent (_analyze_game_state reply self) = sent self ++ [r] /\ automatic r.
Proof.
  rewrite analyze_game_state_unfold. cbv zeta.
  eexists. split.
  - destruct (Py.truthy _); unfold sent; cbn [ui_put set_ui_update_queue set_ai_client ai_client];
      apply (analyze_requests (automatic_state self) (ai_client self) reply
               (Py.slice_from (-1) (get_recent_screenshots (screen_capture self) 1)));
      reflexivity.
  - reflexivity.
Qed.

End Paths.

(** Without a screenshot neither path does anything. *)
Lemma process_message_no_screenshot (reply : RemoteOutcome) (message : string)
    (self : GamePartner) :
  screenshots (screen_capture self) = [] ->
  _process_message reply message self = self.
Proof.
  intros H. apply get_recent_screenshots_1_nil in H.
  unfold _process_message. now rewrite H.
Qed.

Lemma analyze_game_state_no_screenshot (reply : RemoteOutcome) (self : GamePartner) :
  screenshots (screen_capture self) = [] ->
  _analyze_game_state reply self = self.
Proof.
  intros H. apply get_recent_screenshots_1_nil in H.
  unfold _analyze_game_state. now rewrite H.
Qed.

Lemma process_message_frame (reply : RemoteOutcome) (message : string)
    (self : GamePartner) :
  same_frame (_process_message reply message self) self.
Proof.
  unfold _process_message.
  destruct (get_recent_screenshots _ 1); [auto|].
  destruct (analyze _ _ _) as [response client].
  destruct (Py.truthy response); unfold same_frame; cbn; auto 10.
Qed.

Lemma analyze_game_state_frame (reply : RemoteOutcome) (self : GamePartner) :
  same_frame (_analyze_game_state reply self) self.
Proof.
  unfold _analyze_game_state.
  destruct (get_recent_screenshots _ 1); [auto|].
  destruct (analyze _ _ _) as [response client].
  destruct (Py.truthy response); unfold same_frame; cbn; auto 10.
Qed.

(** Polling the inbox takes the oldest message out, if there is one, and
    leaves the rest of the frame alone. *)
Lemma poll_inbox_frame (tick : Tick) (self : GamePartner) :
  screen_capture (poll_inbox tick self) = screen_capture self /\
  message_queue (poll_inbox tick self) = tl (message_queue self) /\
  last_analysis_time (poll_inbox tick self) = last_analysis_time self /\
  analysis_cooldown (poll_inbox tick self) = analysis_cooldown self /\
  running (poll_inbox tick self) = running self.
Proof.
  unfold poll_inbox.
  destruct (message_queue self) as [|message rest] eqn:Hq.
  - rewrite Hq. auto.
  - destruct (process_message_frame (message_reply tick) message
                (set_message_queue rest self)) as (H1 & H2 & H3 & H4 & H5 & H6).
    rewrite H1, H2, H4, H5, H6. cbn. auto.
Qed.

(** The two ways an iteration of the analysis loop can go after the inbox
    was polled. *)
Lemma analysis_loop_iteration_cases (tick : Tick) (self : GamePartner) :
  (cooldown_elapsed tick self = true /\
   screenshots (screen_capture self) <> [] /\
   _analysis_loop_iteration tick self
     = set_last_analysis_time (current_time tick)
         (_analyze_game_state (auto_reply tick) (poll_inbox tick self)))
  \/
  ((cooldown_elapsed tick self = false \/ screenshots (screen_capture self) = []) /\
   _analysis_loop_iteration tick self = poll_inbox tick self).
Proof.
  destruct (poll_inbox_frame tick self) as (Hsc & _ & Hlast & Hcool & _).
  unfold _analysis_loop_iteration. fold (poll_inbox tick self).
  rewrite Hcool, Hlast, Hsc. fold (cooldown_elapsed tick self).
  destruct (cooldown_elapsed tick self); [|right; auto].
  destruct (get_recent_screenshots (screen_capture self) 1) as [|s l] eqn:E.
  - right. split; [right; now apply get_recent_screenshots_1_nil|reflexivity].
  - left. repeat split.
    intros Hnil. apply get_recent_screenshots_1_nil in Hnil. congruence.
Qed.

Lemma poll_inbox_pending (tick : Tick) (self : GamePartner) (m : string)
    (rest : list string) :
  message_queue self = m :: rest ->
  poll_inbox tick self
    = _process_message (message_reply tick) m (set_message_queue rest self).
Proof. intros Hq. unfold poll_inbox. now rewrite Hq. Qed.

Lemma poll_inbox_pending_sent (tick : Tick) (self : GamePartner) (m : string)
    (rest : list string) :
  message_queue self = m :: rest ->
  screenshots (screen_capture self) <> [] ->
  exists r, sent (poll_inbox tick self) = sent self ++ [r] /\ for_message m r.
Proof.
  intros Hq Hstore. rewrite (poll_inbox_pending tick self m rest Hq).
  apply (process_message_sent (message_reply tick) (set_message_queue rest self) Hstore m).
Qed.

(** Without a screenshot, polling only takes the message out of the
    inbox. *)
Lemma poll_inbox_drops (tick : Tick) (self : GamePartner) (m : string)
    (rest : list string) :
  message_queue self = m :: rest ->
  screenshots (screen_capture self) = [] ->
  poll_inbox tick self = set_message_queue rest self.
Proof.
  intros Hq Hstore. rewrite (poll_inbox_pending tick self m rest Hq).
  now apply process_message_no_screenshot.
Qed.

(** Inside the cooldown, or with an empty inbox and an empty store,
    polling sends at most the request of the pending message. *)
Lemma poll_inbox_sent (tick : Tick) (self : GamePartner) :
  exists new,
    sent (poll_inbox tick self) = sent self ++ new /\
    Forall (fun r => exists m, for_message m r) new.
Proof.
  destruct (message_queue self) as [|m rest] eqn:Hq.
  - exists []. unfold poll_inbox. rewrite Hq, app_nil_r. auto.
  - destruct (screenshots (screen_capture self)) as [|s l] eqn:Hstore.
    + exists []. rewrite (poll_inbox_drops tick self m rest Hq Hstore), app_nil_r.
      auto.
    + destruct (poll_inbox_pending_sent tick self m rest Hq) as (r & Hsent & Hr);
        [congruence|].
      exists [r]. split; [exact Hsent|]. constructor; [now exists m|constructor].
Qed.

(** C1 fails: with the message "hello" pending, a screenshot in the store
    and the cooldown elapsed, one iteration sends two requests, the one of
    the message and then the automatic one. *)
Lemma pending_message_and_cooldown_two_requests :
  let after := _analysis_loop_iteration Scenario.tick_both_answered Scenario.hello_pending in
  message_queue Scenario.hello_pending = ["hello"] /\
  screenshots (screen_capture Scenario.hello_pending) <> [] /\
  (analysis_cooldown Scenario.hello_pending
     <= current_time Scenario.tick_both_answered
        - last_analysis_time Scenario.hello_pending)%Q /\
  sent Scenario.hello_pending = [] /\
  map (fun r => gs_message (req_state r)) (sent after) = [Some "hello"; None] /\
  length (sent after) <> 1%nat.
Proof.
  cbv zeta. repeat split; try reflexivity; try discriminate.
Qed.

(** C1, amended.  In an iteration with a pending message, a screenshot in
    the store and the cooldown elapsed, exactly two requests are sent:
    first the request of the pending message, then the automatic one.  The
    message leaves the inbox and the time of the last analysis becomes the
    clock reading of the iteration. *)
Theorem pending_message_then_periodic_check (tick : Tick) (self : GamePartner)
    (m : string) (rest : list string) :
  message_queue self = m :: rest ->
  screenshots (screen_capture self) <> [] ->
  (analysis_cooldown self <= current_time tick - last_analysis_time self)%Q ->
  let after := _analysis_loop_iteration tick self in
  exists r1 r2,
    sent after = sent self ++ [r1; r2] /\
    for_message m r1 /\
    automatic r2 /\
    message_queue after = rest /\
    last_analysis_time after = current_time tick.
Proof.
  intros Hq Hstore Hcool after.
  destruct (analysis_loop_iteration_cases tick self)
    as [(_ & _ & Hiter) | ([Hnot | Hempty] & _)].
  - destruct (poll_inbox_frame tick self) as (Hsc & Hmq & _).
    destruct (poll_inbox_pending_sent tick self m rest Hq Hstore) as (r1 & Hsent1 & Hr1).
    assert (Hstore1 : screenshots (screen_capture (poll_inbox tick self)) <> [])
      by now rewrite Hsc.
    destruct (analyze_game_state_sent (auto_reply tick) (poll_inbox tick self) Hstore1)
      as (r2 & Hsent2 & Hr2).
    destruct (analyze_game_state_frame (auto_reply tick) (poll_inbox tick self))
      as (_ & Hmq2 & _).
    exists r1, r2. unfold after. rewrite Hiter.
    unfold sent in *. cbn [set_last_analysis_time ai_client message_queue last_analysis_time].
    rewrite Hsent2, Hsent1, <- app_assoc, Hmq2, Hmq, Hq. cbn. auto.
  - exfalso. unfold cooldown_elapsed in Hnot.
    apply Qle_bool_iff in Hcool. congruence.
  - contradiction.
Qed.

(** An instance of the amended C1. *)
Lemma pending_message_then_periodic_check_witness :
  exists r1 r2,
    sent (_analysis_loop_iteration Scenario.tick_both_answered Scenario.hello_pending)
      = sent Scenario.hello_pending ++ [r1; r2] /\
    for_message "hello" r1 /\ automatic r2.
Proof.
  destruct (pending_message_then_periodic_check Scenario.tick_both_answered
              Scenario.hello_pending "hello" [] eq_refl)
    as (r1 & r2 & Hsent & H1 & H2 & _).
  - cbn. discriminate.
  - cbn. discriminate.
  - exists r1, r2. auto.
Defined.

(** The cooldown that [__init__] sets is never below five seconds. *)
Lemma init_cooldown_floor (config : Config) :
  (5 <= analysis_cooldown (init config))%Q.
Proof. cbn. apply Q.le_max_r. Qed.

(** Whatever the cooldown: before it has elapsed, an iteration sends
    nothing but the request of a pending message, and the time of the last
    analysis stays. *)
Lemma no_automatic_request_inside_cooldown (tick : Tick) (self : GamePartner) :
  (current_time tick < last_analysis_time self + analysis_cooldown self)%Q ->
  exists new,
    sent (_analysis_loop_iteration tick self) = sent self ++ new /\
    Forall (fun r => exists m, for_message m r) new /\
    last_analysis_time (_analysis_loop_iteration tick self) = last_analysis_time self.
Proof.
  intros Hearly.
  destruct (poll_inbox_frame tick self) as (_ & _ & Hlast & _).
  destruct (analysis_loop_iteration_cases tick self)
    as [(Hdue & _ & _) | (_ & ->)].
  - exfalso. unfold cooldown_elapsed in Hdue. apply Qle_bool_iff in Hdue. lra.
  - destruct (poll_inbox_sent tick self) as (new & Hsent & Hnew).
    exists new. auto.
Qed.

(** C5 fails: with a cooldown of five seconds, the message "hello"
    pending and the store still empty, the cycle takes the message out of
    the inbox and submits no request for it, inside the cooldown (clock
    reading 1) as well as after it (clock reading 10). *)
Lemma pending_message_not_submitted_without_screenshot :
  let early := _analysis_loop_iteration Scenario.tick_early Scenario.hello_no_screenshot in
  let late :=
    _analysis_loop_iteration Scenario.tick_both_answered Scenario.hello_no_screenshot in
  (analysis_cooldown Scenario.hello_no_screenshot == 5)%Q /\
  message_queue Scenario.hello_no_screenshot = ["hello"] /\
  sent Scenario.hello_no_screenshot = [] /\
  sent early = [] /\ message_queue early = [] /\
  sent late = [] /\ message_queue late = [] /\
  ~ (exists r later,
       sent early = sent Scenario.hello_no_screenshot ++ r :: later /\
       for_message "hello" r).
Proof.
  cbv zeta. repeat split.
  intros (r & later & Hsent & _). cbn in Hsent. discriminate.
Qed.

(** C5, amended.  With a cooldown of five seconds and the last analysis
    at [T]: an iteration whose clock reading is before [T + 5] sends no
    automatic request (what it sends is for a user's message) and leaves
    the time of the last analysis at [T]; a pending message is sent first
    in the iteration, whatever the clock reading, when there is a
    screenshot in the store, and is discarded without a request when the
    store is empty; and processing a message never changes the time of
    the last analysis. *)
Theorem cooldown_paces_only_automatic_requests (tick : Tick) (self : GamePartner) :
  (analysis_cooldown self == 5)%Q ->
  let after := _analysis_loop_iteration tick self in
  ((current_time tick < last_analysis_time self + 5)%Q ->
   exists new,
     sent after = sent self ++ new /\
     Forall (fun r => exists m, for_message m r) new /\
     last_analysis_time after = last_analysis_time self) /\
  (forall m rest,
     message_queue self = m :: rest ->
     screenshots (screen_capture self) <> [] ->
     exists r later, sent after = sent self ++ r :: later /\ for_message m r) /\
  (forall m rest,
     message_queue self = m :: rest ->
     screenshots (screen_capture self) = [] ->
     sent after = sent self /\ message_queue after = rest) /\
  (forall reply m,
     last_analysis_time (_process_message reply m self) = last_analysis_time self).
Proof.
  intros Hfive after. unfold after.
  destruct (poll_inbox_frame tick self) as (Hsc & _ & Hlast & _).
  split; [|split; [|split]].
  - intros Hearly. apply no_automatic_request_inside_cooldown. lra.
  - intros m rest Hq Hstore.
    destruct (poll_inbox_pending_sent tick self m rest Hq Hstore) as (r & Hsent & Hr).
    destruct (analysis_loop_iteration_cases tick self)
      as [(_ & _ & ->) | (_ & ->)].
    + assert (Hstore1 : screenshots (screen_capture (poll_inbox tick self)) <> [])
        by now rewrite Hsc.
      destruct (analyze_game_state_sent (auto_reply tick) (poll_inbox tick self) Hstore1)
        as (r2 & Hsent2 & _).
      exists r, [r2]. split; [|exact Hr].
      unfold sent in *. cbn [set_last_analysis_time ai_client].
      now rewrite Hsent2, Hsent, <- app_assoc.
    + exists r, []. auto.
  - intros m rest Hq Hempty.
    destruct (analysis_loop_iteration_cases tick self)
      as [(_ & Hstore & _) | (_ & ->)]; [contradiction|].
    rewrite (poll_inbox_drops tick self m rest Hq Hempty). split; reflexivity.
  - intros reply m.
    now destruct (process_message_frame reply m self) as (_ & _ & _ & H & _).
Qed.

(** An instance of the amended C5: at clock reading 1, inside the cooldown
    that began at 0, only the request of the pending message "hello" is
    sent. *)
Lemma cooldown_paces_only_automatic_requests_witness :
  exists new,
    sent (_analysis_loop_iteration Scenario.tick_early Scenario.hello_pending)
      = sent Scenario.hello_pending ++ new /\
    Forall (fun r => exists m, for_message m r) new /\
    last_analysis_time (_analysis_loop_iteration Scenario.tick_early Scenario.hello_pending)
      = last_analysis_time Scenario.hello_pending.
Proof.
  assert (Hfive : (analysis_cooldown Scenario.hello_pending == 5)%Q) by reflexivity.
  destruct (cooldown_paces_only_automatic_requests Scenario.tick_early
              Scenario.hello_pending Hfive) as (Hearly & _ & _).
  apply Hearly. reflexivity.
Defined.

(** C6 fails: with the store still empty, the pending message "hello" is
    taken out of the inbox and no request is sent for it. *)
Lemma message_dropped_without_screenshot :
  let after :=
    _analysis_loop_iteration Scenario.tick_both_answered Scenario.hello_no_screenshot in
  message_queue Scenario.hello_no_screenshot = ["hello"] /\
  message_queue after = [] /\
  sent after = [] /\
  ui_update_queue after = [].
Proof. cbv zeta. repeat split. Qed.

(** C6, amended.  An iteration takes exactly one message, the oldest, out
    of a non-empty inbox.  With a screenshot in the store, the first
    request of the iteration is for that message, and no other request of
    the iteration carries user text.  With an empty store the message is
    discarded: no request is sent and nothing is shown. *)
Theorem pending_message_consumed_once (tick : Tick) (self : GamePartner)
    (m : string) (rest : list string) :
  message_queue self = m :: rest ->
  let after := _analysis_loop_iteration tick self in
  message_queue after = rest /\
  (screenshots (screen_capture self) <> [] ->
   exists r later,
     sent after = sent self ++ r :: later /\
     for_message m r /\
     Forall automatic later) /\
  (screenshots (screen_capture self) = [] ->
   sent after = sent self /\ ui_update_queue after = ui_update_queue self).
Proof.
  intros Hq after. unfold after.
  destruct (poll_inbox_frame tick self) as (Hsc & Hmq & _).
  rewrite Hq in Hmq. cbn [tl] in Hmq.
  split; [|split].
  - destruct (analysis_loop_iteration_cases tick self)
      as [(_ & _ & ->) | (_ & ->)]; [|exact Hmq].
    destruct (analyze_game_state_frame (auto_reply tick) (poll_inbox tick self))
      as (_ & Hmq2 & _).
    cbn [set_last_analysis_time message_queue]. now rewrite Hmq2.
  - intros Hstore.
    destruct (poll_inbox_pending_sent tick self m rest Hq Hstore) as (r & Hsent & Hr).
    destruct (analysis_loop_iteration_cases tick self)
      as [(_ & _ & ->) | (_ & ->)].
    + assert (Hstore1 : screenshots (screen_capture (poll_inbox tick self)) <> [])
        by now rewrite Hsc.
      destruct (analyze_game_state_sent (auto_reply tick) (poll_inbox tick self) Hstore1)
        as (r2 & Hsent2 & Hr2).
      exists r, [r2]. split; [|split; [exact Hr|]].
      * unfold sent in *. cbn [set_last_analysis_time ai_client].
        now rewrite Hsent2, Hsent, <- app_assoc.
      * constructor; [exact Hr2|constructor].
    + exists r, []. auto.
  - intros Hempty.
    destruct (analysis_loop_iteration_cases tick self)
      as [(_ & Hstore & _) | (_ & ->)]; [contradiction|].
    rewrite (poll_inbox_drops tick self m rest Hq Hempty). split; reflexivity.
Qed.

(** An instance of the amended C6: "hello" is taken out of the inbox and
    sent first. *)
Lemma pending_message_consumed_once_witness :
  message_queue (_analysis_loop_iteration Scenario.tick_both_answered Scenario.hello_pending)
    = [] /\
  exists r later,
    sent (_analysis_loop_iteration Scenario.tick_both_answered Scenario.hello_pending)
      = sent Scenario.hello_pending ++ r :: later /\
    for_message "hello" r /\ Forall automatic later.
Proof.
  destruct (pending_message_consumed_once Scenario.tick_both_answered
              Scenario.hello_pending "hello" [] eq_refl) as (Hq & Hsent & _).
  split; [exact Hq|]. apply Hsent. cbn. discriminate.
Defined.

Section RemoteFailure.

Variables (self : GamePartner) (msg : string).

Hypothesis store_not_empty : screenshots (screen_capture self) <> [].

Lemma analyze_raises_message_state (message : string) :
  analyze (Raises msg) (message_state self message) (ai_client self)
    = (error_text msg,
       log_request
         {| req_state := message_state self message;
            req_messages :=
              conversation_history (ai_client self)
                ++ [user_turn
                      (human_message (ai_client self) (message_state self message)
                         (Py.slice_from (-1)
                            (get_recent_screenshots (screen_capture self) 1)))] |}
         (ai_client self)).
Proof. now apply analyze_remote_raises. Qed.

(** A failed call for a user's message: the history is as before, and the
    user's text and then the error text are queued for display. *)
Lemma process_message_remote_failure (message : string) :
  history (_process_message (Raises msg) message self) = history self /\
  ui_update_queue (_process_message (Raises msg) message self)
    = ui_update_queue self
        ++ [add_message message false; add_message (error_text msg) true].
Proof.
  rewrite (process_message_unfold (Raises msg) self store_not_empty message).
  rewrite analyze_raises_message_state. cbn.
  rewrite <- app_assoc. split; reflexivity.
Qed.

(** A failed automatic call: the history is as before, and the error text
    is queued for display. *)
Lemma analyze_game_state_remote_failure :
  history (_analyze_game_state (Raises msg) self) = history self /\
  ui_update_queue (_analyze_game_state (Raises msg) self)
    = ui_update_queue self ++ [add_message (error_text msg) true].
Proof.
  rewrite (analyze_game_state_unfold (Raises msg) self store_not_empty).
  unfold automatic_state.
  rewrite (analyze_remote_raises _ _
             (Py.slice_from (-1) (get_recent_screenshots (screen_capture self) 1)))
    by reflexivity.
  cbn. split; reflexivity.
Qed.

End RemoteFailure.

(** C4 fails.  When the remote call for the pending message "hello"
    raises, two instructions are queued for the UI, the user's own text
    and then the error text.  When, the cooldown having elapsed, the
    automatic call of the same iteration raises too, three instructions
    are queued, two of them with an error text. *)
Lemma remote_failure_queues_more_than_one :
  let after := _analysis_loop_iteration Scenario.tick_remote_fails Scenario.hello_pending in
  let late :=
    _analysis_loop_iteration Scenario.tick_remote_fails_late Scenario.hello_pending in
  ui_update_queue Scenario.hello_pending = [] /\
  length (sent after) = 1%nat /\
  ui_update_queue after
    = [add_message "hello" false;
       add_message "Error analyzing game state: Connection error." true] /\
  length (ui_update_queue after) <> 1%nat /\
  length (sent late) = 2%nat /\
  ui_update_queue late
    = [add_message "hello" false;
       add_message "Error analyzing game state: Connection error." true;
       add_message "Error analyzing game state: Connection error." true] /\
  length (filter shows_error (ui_update_queue late)) <> 1%nat.
Proof.
  cbv zeta. repeat split; try reflexivity; discriminate.
Qed.

(** C4, amended.  In an iteration in which every remote call raises, the
    history is unchanged and the loop keeps running with the same store
    and cooldown.  Each failed call queues its error text as an AI
    message: for the request of a pending message the user's own text is
    queued first and the error text after it, for the automatic request
    the error text alone. *)
Theorem remote_failure_keeps_history (tick : Tick) (self : GamePartner)
    (msg1 msg2 : string) :
  message_reply tick = Raises msg1 ->
  auto_reply tick = Raises msg2 ->
  let after := _analysis_loop_iteration tick self in
  history after = history self /\
  running after = running self /\
  screen_capture after = screen_capture self /\
  analysis_cooldown after = analysis_cooldown self /\
  ui_update_queue after
    = ui_update_queue self
        ++ match message_queue self, screenshots (screen_capture self) with
           | message :: _, _ :: _ =>
               [add_message message false; add_message (error_text msg1) true]
           | _, _ => []
           end
        ++ match screenshots (screen_capture self) with
           | _ :: _ => if cooldown_elapsed tick self
                       then [add_message (error_text msg2) true]
                       else []
           | [] => []
           end.
Proof.
  intros Hmsg Hauto after.
  destruct (poll_inbox_frame tick self) as (Hsc & _ & _ & Hcool & Hrun).
  assert (Hpoll :
    history (poll_inbox tick self) = history self /\
    ui_update_queue (poll_inbox tick self)
      = ui_update_queue self
          ++ match message_queue self, screenshots (screen_capture self) with
             | message :: _, _ :: _ =>
                 [add_message message false; add_message (error_text msg1) true]
             | _, _ => []
             end).
  { destruct (message_queue self) as [|m rest] eqn:Hq.
    - unfold poll_inbox. rewrite Hq, app_nil_r. auto.
    - destruct (screenshots (screen_capture self)) as [|s l] eqn:Hstore.
      + rewrite (poll_inbox_drops tick self m rest Hq Hstore), app_nil_r. auto.
      + rewrite (poll_inbox_pending tick self m rest Hq), Hmsg.
        apply (process_message_remote_failure (set_message_queue rest self)).
        cbn. congruence. }
  destruct Hpoll as (Hhist & Hui).
  unfold after.
  destruct (analysis_loop_iteration_cases tick self)
    as [(Hdue & Hstore & ->) | (Hskip & ->)].
  - assert (Hstore1 : screenshots (screen_capture (poll_inbox tick self)) <> [])
      by now rewrite Hsc.
    destruct (analyze_game_state_remote_failure (poll_inbox tick self) msg2 Hstore1)
      as (Hhist2 & Hui2).
    destruct (analyze_game_state_frame (auto_reply tick) (poll_inbox tick self))
      as (Hsc2 & _ & _ & _ & Hcool2 & Hrun2).
    rewrite Hauto in *.
    unfold history in *.
    cbn [set_last_analysis_time ai_client running screen_capture analysis_cooldown
           ui_update_queue].
    rewrite Hhist2, Hhist, Hrun2, Hrun, Hsc2, Hsc, Hcool2, Hcool, Hui2, Hui, Hdue.
    destruct (screenshots (screen_capture self)) as [|s l]; [contradiction|].
    rewrite <- app_assoc. auto.
  - rewrite Hhist, Hrun, Hsc, Hcool, Hui.
    repeat split.
    destruct Hskip as [Hnot | Hempty].
    + rewrite Hnot.
      destruct (screenshots (screen_capture self)); now rewrite app_nil_r.
    + rewrite Hempty. now rewrite app_nil_r.
Qed.

(** An instance of the amended C4. *)
Lemma remote_failure_keeps_history_witness :
  history (_analysis_loop_iteration Scenario.tick_remote_fails Scenario.hello_pending)
    = history Scenario.hello_pending /\
  running (_analysis_loop_iteration Scenario.tick_remote_fails Scenario.hello_pending)
    = true.
Proof.
  destruct (remote_failure_keeps_history Scenario.tick_remote_fails
              Scenario.hello_pending "Connection error." "Connection error."
              eq_refl eq_refl) as (Hhist & Hrun & _).
  split; [exact Hhist|exact Hrun].
Defined.

(** C8 fails: the remote answers the message "hello" with an empty text,
    and only the user's own text is queued for display. *)
Lemma empty_reply_queues_one_instruction :
  screenshots (screen_capture Scenario.hello_pending) <> [] /\
  fst (analyze (Returns [""]) (message_state Scenario.hello_pending "hello")
         (ai_client Scenario.hello_pending)) = "" /\
  ui_update_queue Scenario.hello_pending = [] /\
  ui_update_queue (_process_message (Returns [""]) "hello" Scenario.hello_pending)
    = [add_message "hello" false].
Proof. repeat split; try reflexivity; discriminate. Qed.

(** C8, amended.  Processing a user's message with a screenshot in the
    store and a remote reply whose text is not empty queues exactly two
    instructions, in this order: the user's text as a user message, then
    the reply as an AI message.  When the reply's text is empty only the
    user's text is queued. *)
Theorem message_then_reply_queued (self : GamePartner) (message t : string)
    (more : list string) :
  screenshots (screen_capture self) <> [] ->
  0 <= max_history (ai_client self) ->
  let after := _process_message (Returns (t :: more)) message self in
  (Py.truthy t = true ->
   ui_update_queue after
     = ui_update_queue self ++ [add_message message false; add_message t true]) /\
  (t = "" ->
   ui_update_queue after = ui_update_queue self ++ [add_message message false]).
Proof.
  intros Hstore Hmax after. unfold after.
  rewrite (process_message_unfold (Returns (t :: more)) self Hstore message).
  pose proof (analyze_returns (message_state self message) (ai_client self)
                (Py.slice_from (-1) (get_recent_screenshots (screen_capture self) 1))
                t more eq_refl Hmax) as Hanalyze.
  rewrite Hanalyze. cbv zeta. cbn [fst snd]. split.
  - intros Ht. rewrite Ht. cbn. now rewrite <- app_assoc.
  - intros ->. reflexivity.
Qed.

(** An instance of the amended C8: "hello" answered with "hi". *)
Lemma message_then_reply_queued_witness :
  ui_update_queue (_process_message (Returns ["hi"]) "hello" Scenario.hello_pending)
    = [add_message "hello" false; add_message "hi" true].
Proof.
  destruct (message_then_reply_queued Scenario.hello_pending "hello" "hi" [])
    as (Htwo & _).
  - cbn. discriminate.
  - cbn. lia.
  - rewrite Htwo; reflexivity.
Defined.

(** The backlog of the inbox drains one message per iteration, oldest
    first, while the loop is running. *)
Lemma analysis_loop_iteration_running (tick : Tick) (self : GamePartner) :
  running (_analysis_loop_iteration tick self) = running self /\
  message_queue (_analysis_loop_iteration tick self) = tl (message_queue self).
Proof.
  destruct (poll_inbox_frame tick self) as (_ & Hmq & _ & _ & Hrun).
  destruct (analysis_loop_iteration_cases tick self)
    as [(_ & _ & ->) | (_ & ->)]; [|auto].
  destruct (analyze_game_state_frame (auto_reply tick) (poll_inbox tick self))
    as (_ & Hmq2 & _ & _ & _ & Hrun2).
  cbn [set_last_analysis_time running message_queue].
  now rewrite Hmq2, Hrun2.
Qed.

Lemma analysis_loop_drains_inbox (ticks : list Tick) (self : GamePartner) :
  running self = true ->
  message_queue (_analysis_loop ticks self)
    = skipn (length ticks) (message_queue self).
Proof.
  revert self. induction ticks as [|tick later IH]; intros self Hrun; [reflexivity|].
  cbn [_analysis_loop length]. rewrite Hrun.
  destruct (analysis_loop_iteration_running tick self) as (Hrun' & Hmq).
  rewrite IH by congruence. rewrite Hmq.
  destruct (message_queue self) as [|m rest]; [now rewrite skipn_nil|reflexivity].
Qed.

(* ================================================================== *)
(** ** Further properties of the screenshot store *)
(* ================================================================== *)

Import main_ui_py Runs.

(** An instance: capacity two, three captures and a failed one. *)
Lemma capture_loop_keeps_most_recent_witness :
  screenshots
    (_capture_loop [Some Scenario.shot_a; None; Some Scenario.shot_b; Some Scenario.shot_a]
       (screen_capture_py.init 2))
    = [Scenario.shot_b; Scenario.shot_a].
Proof.
  rewrite capture_loop_keeps_most_recent; [reflexivity | cbn; lia | cbn; lia].
Defined.

(** X2.  For a count of at least one, [get_recent_screenshots] returns the
    [count] most recent screenshots (all of them if there are fewer), in
    the order of capture, most recent last. *)
Theorem get_recent_screenshots_returns_latest (self : ScreenCapture) (count : Z) :
  1 <= count ->
  get_recent_screenshots self count = last_n count (screenshots self) /\
  Z.of_nat (length (get_recent_screenshots self count))
    = Z.min count (Z.of_nat (length (screenshots self))) /\
  exists older, screenshots self = older ++ get_recent_screenshots self count.
Proof.
  intros Hcount. rewrite get_recent_screenshots_positive by assumption.
  split; [reflexivity|]. split; [apply length_last_n; lia|].
  exists (firstn (length (screenshots self) - Z.to_nat count) (screenshots self)).
  unfold last_n. now rewrite firstn_skipn.
Qed.

Lemma get_recent_screenshots_returns_latest_witness :
  get_recent_screenshots Scenario.two_shots 1 = [Scenario.shot_b].
Proof.
  destruct (get_recent_screenshots_returns_latest Scenario.two_shots 1) as (H & _).
  - lia.
  - rewrite H. reflexivity.
Defined.

(** X3.  A negative count [-k] selects [screenshots[k:]]: everything but the
    [k] oldest screenshots. *)
Theorem get_recent_screenshots_negative_count (self : ScreenCapture) (k : nat) :
  get_recent_screenshots self (- Z.of_nat k) = skipn k (screenshots self).
Proof.
  unfold get_recent_screenshots, Py.slice_from.
  destruct (screenshots self) as [|s l] eqn:E; [now rewrite skipn_nil|].
  rewrite Z.opp_involutive.
  destruct (Z.ltb_spec (Z.of_nat k) 0); [lia|].
  destruct (Z.min_spec (Z.of_nat k) (Z.of_nat (length (s :: l)))) as [[Hlt ->]|[Hge ->]].
  - now rewrite Nat2Z.id.
  - rewrite Nat2Z.id, skipn_all. symmetry. apply skipn_all2. lia.
Qed.

Lemma capture_keeps_store_inhabited (img : option Screenshot) (self : GamePartner) :
  1 <= max_screenshots (screen_capture self) ->
  screenshots (screen_capture self) <> [] ->
  screenshots (screen_capture (capture img self)) <> [] /\
  max_screenshots (screen_capture (capture img self))
    = max_screenshots (screen_capture self).
Proof.
  intros Hmax Hstore. unfold capture. cbn [set_screen_capture screen_capture].
  split; [|apply (max_screenshots_capture_loop [img] (screen_capture self))].
  destruct img as [shot|]; [|exact Hstore].
  rewrite capture_iteration_bounded by lia.
  intros Hnil. apply (f_equal (@length _)) in Hnil.
  apply (f_equal Z.of_nat) in Hnil.
  rewrite length_last_n in Hnil by lia.
  rewrite length_app in Hnil. cbn [length] in Hnil. lia.
Qed.

Lemma step_screen_capture (s : Step) (self : GamePartner) :
  match s with
  | Grab img => True
  | _ => screen_capture (step s self) = screen_capture self
  end.
Proof.
  destruct s as [tick|img|msg]; cbn [step]; auto.
  destruct (running self); [|reflexivity].
  destruct (poll_inbox_frame tick self) as (Hsc & _).
  destruct (analysis_loop_iteration_cases tick self)
    as [(_ & _ & ->) | (_ & ->)]; [|exact Hsc].
  destruct (analyze_game_state_frame (auto_reply tick) (poll_inbox tick self))
    as (Hsc2 & _).
  cbn [set_last_analysis_time screen_capture]. congruence.
Qed.

Lemma step_keeps_store_inhabited (s : Step) (self : GamePartner) :
  1 <= max_screenshots (screen_capture self) ->
  screenshots (screen_capture self) <> [] ->
  screenshots (screen_capture (step s self)) <> [] /\
  1 <= max_screenshots (screen_capture (step s self)).
Proof.
  intros Hmax Hstore.
  pose proof (step_screen_capture s self) as Hsc.
  destruct s as [tick|img|msg]; try (rewrite Hsc; auto).
  cbn [step]. destruct (capture_keeps_store_inhabited img self Hmax Hstore) as (H1 & H2).
  split; [exact H1 | now rewrite H2].
Qed.

(** X4.  With room for at least one screenshot, a store that holds one never
    becomes empty again, whatever the capture loop, the analysis loop and
    the user do. *)
Theorem store_never_empties (l : list Step) (self : GamePartner) :
  1 <= max_screenshots (screen_capture self) ->
  screenshots (screen_capture self) <> [] ->
  screenshots (screen_capture (steps l self)) <> [].
Proof.
  revert self. induction l as [|s later IH]; intros self Hmax Hstore; [exact Hstore|].
  cbn [steps].
  destruct (step_keeps_store_inhabited s self Hmax Hstore) as (H1 & H2).
  now apply IH.
Qed.

Lemma store_never_empties_witness :
  screenshots
    (screen_capture
       (steps [Grab (Some Scenario.shot_a); Iterate Scenario.tick_both_answered; Grab None]
          Scenario.hello_pending))
    <> [].
Proof.
  apply store_never_empties.
  - cbn. lia.
  - cbn. discriminate.
Defined.

(* ================================================================== *)
(** ** Further properties of the AI client *)
(* ================================================================== *)

(** An instance of the history window: a window of one exchange, two
    answered calls. *)
Lemma history_holds_recent_exchanges_witness :
  map text
    (conversation_history
       (analyze_all [(Returns ["first"], Scenario.auto_state);
                     (Returns ["second"], Scenario.auto_state)]
          (ai_client_py.init 1 150)))
    = [human_message (ai_client_py.init 1 150) Scenario.auto_state [Scenario.shot_b];
       "second"].
Proof.
  destruct (history_holds_recent_exchanges 1 150
              [(Returns ["first"], Scenario.auto_state);
               (Returns ["second"], Scenario.auto_state)]) as (Hh & _).
  - lia.
  - repeat constructor.
  - rewrite Hh. reflexivity.
Defined.

(** X6.  A game state without the key ["screenshots"]: [analyze] returns the
    error text that names the key, sends no request and leaves the client
    as it was, whatever the remote would have answered. *)
Theorem analyze_without_screenshots_key (reply : RemoteOutcome)
    (game_state : GameState) (self : AIClient) :
  gs_screenshots game_state = None ->
  fst (analyze reply game_state self) = "Error analyzing game state: 'screenshots'" /\
  snd (analyze reply game_state self) = self.
Proof.
  intros Hkey. now rewrite analyze_key_error.
Qed.

Lemma analyze_without_screenshots_key_witness :
  snd (analyze (Returns ["hi"])
         {| gs_screenshots := None; gs_message := Some "hello";
            gs_game_name := None; gs_additional_context := None |}
         Scenario.client)
    = Scenario.client.
Proof.
  destruct (analyze_without_screenshots_key (Returns ["hi"])
              {| gs_screenshots := None; gs_message := Some "hello";
                 gs_game_name := None; gs_additional_context := None |}
              Scenario.client eq_refl) as (_ & Hsame).
  exact Hsame.
Defined.

(** X7.  With a negative [memory_window_size], an answered call still ends in
    the handler: the trimming loop pops every turn, then pops from the
    empty list.  The reply is lost, the error text is returned and the
    history is empty afterwards. *)
Theorem analyze_negative_window_empties_history (game_state : GameState)
    (self : AIClient) (shots : list Screenshot) (t : string) (more : list string) :
  gs_screenshots game_state = Some shots ->
  max_history self < 0 ->
  fst (analyze (Returns (t :: more)) game_state self)
    = "Error analyzing game state: pop from empty list" /\
  conversation_history (snd (analyze (Returns (t :: more)) game_state self)) = [].
Proof.
  intros Hkey Hmax.
  split; [now apply (analyze_negative_window _ _ shots)|].
  unfold analyze, analyze_try, bind, subscript_screenshots.
  rewrite Hkey. cbn.
  unfold trim_history. cbn.
  set (h := (conversation_history self ++ _) ++ _).
  pose proof (pop_while_longer_raised (max_history self * 2) h) as Hraised.
  assert (Hrest : snd (fst (Py.pop_while_longer (max_history self * 2) h)) = []).
  { clear Hraised. induction h as [|x rest IH]; [reflexivity|].
    cbn [Py.pop_while_longer].
    destruct (Z.gtb_spec (Z.of_nat (length (x :: rest))) (max_history self * 2));
      [|lia].
    destruct (Py.pop_while_longer (max_history self * 2) rest) as [[popped kept] raised].
    exact IH. }
  destruct (Py.pop_while_longer (max_history self * 2) h) as [[popped kept] raised].
  cbn in Hrest, Hraised. subst kept.
  destruct raised; reflexivity.
Qed.

Lemma analyze_negative_window_empties_history_witness :
  conversation_history
    (snd (analyze (Returns ["hi"]) Scenario.auto_state (ai_client_py.init (-1) 150)))
    = [].
Proof.
  destruct (analyze_negative_window_empties_history Scenario.auto_state
              (ai_client_py.init (-1) 150) [Scenario.shot_b] "hi" [] eq_refl)
    as (_ & H).
  - cbn. lia.
  - exact H.
Defined.

(** X9.  An answer without content leaves its prompt in the history, and the
    history is not trimmed.  The next request therefore ends with two
    user turns in a row: the orphaned prompt and the new one. *)
Theorem empty_content_orphans_prompt (self : AIClient) (game_state next_state : GameState)
    (shots next_shots : list Screenshot) (reply : RemoteOutcome) :
  gs_screenshots game_state = Some shots ->
  gs_screenshots next_state = Some next_shots ->
  let self1 := snd (analyze (Returns []) game_state self) in
  let orphan := user_turn (human_message self game_state shots) in
  conversation_history self1 = conversation_history self ++ [orphan] /\
  exists r,
    requests (snd (analyze reply next_state self1)) = requests self1 ++ [r] /\
    req_messages r
      = conversation_history self
          ++ [orphan; user_turn (human_message self next_state next_shots)].
Proof.
  intros Hkey Hnext self1 orphan. unfold self1.
  rewrite (analyze_empty_content _ _ shots Hkey). cbn [snd].
  split; [reflexivity|].
  eexists. split; [now apply (analyze_requests _ _ reply next_shots)|].
  cbn [req_messages set_history conversation_history].
  rewrite <- app_assoc. reflexivity.
Qed.

Lemma empty_content_orphans_prompt_witness :
  map role
    (conversation_history
       (snd (analyze (Returns []) Scenario.auto_state Scenario.client)))
    = [user].
Proof.
  destruct (empty_content_orphans_prompt Scenario.client Scenario.auto_state
              Scenario.auto_state [Scenario.shot_b] [Scenario.shot_b]
              (Returns ["hi"]) eq_refl eq_refl) as (Hhist & _).
  rewrite Hhist. reflexivity.
Defined.

(** *** What the remote is sent *)

Lemma alternates_turns_of (l : list (Turn * Turn)) (tail : list Turn) :
  Forall (fun e => role (fst e) = user /\ role (snd e) = assistant) l ->
  alternates user (turns_of l ++ tail) = alternates user tail.
Proof.
  induction 1 as [|[u a] later [Hu Ha] _ IH]; [reflexivity|].
  cbn [turns_of app alternates fst snd] in *. now rewrite Hu, Ha.
Qed.

Lemma exchanges_roles (self : AIClient) (calls : list (RemoteOutcome * GameState)) :
  Forall (fun e => role (fst e) = user /\ role (snd e) = assistant)
    (exchanges self calls).
Proof.
  induction calls as [|[reply game_state] later IH]; [constructor|].
  cbn [exchanges].
  destruct reply as [[|t more]|msg]; try exact IH.
  destruct (gs_screenshots game_state); [|exact IH].
  constructor; [split; reflexivity|exact IH].
Qed.

Lemma Forall_last_n {A : Type} (P : A -> Prop) (n : Z) (l : list A) :
  Forall P l -> Forall P (last_n n l).
Proof.
  intros H. unfold last_n.
  rewrite <- (firstn_skipn (length l - Z.to_nat n) l) in H.
  now apply Forall_app in H.
Qed.

Lemma last_snoc_some {A : Type} (l : list A) (x : A) :
  last (map Some (l ++ [x])) None = Some x.
Proof.
  rewrite map_app. cbn [map]. apply last_last.
Qed.

(** X8.  Every request that a fresh client sends, over calls that are each
    answered with text or fail in the remote, is a dialogue that the
    remote accepts: the roles alternate from a user turn to a user turn.
    It is the history of that moment followed by the new prompt, at most
    [2 * memory_window_size + 1] messages. *)
Theorem requests_are_dialogues (W L : Z) (calls : list (RemoteOutcome * GameState)) :
  0 <= W ->
  Forall (fun call => has_text (fst call)) calls ->
  Forall (fun r => dialogue (req_messages r) /\
                   Z.of_nat (length (req_messages r)) <= 2 * W + 1)
    (requests (analyze_all calls (ai_client_py.init W L))).
Proof.
  intros HW Htext.
  set (fresh := ai_client_py.init W L).
  (* the requests of a prefix of the calls, for every prefix *)
  assert (Hgen : forall done todo,
             calls = done ++ todo ->
             Forall (fun r => dialogue (req_messages r) /\
                              Z.of_nat (length (req_messages r)) <= 2 * W + 1)
               (requests (analyze_all done fresh)) ->
             Forall (fun r => dialogue (req_messages r) /\
                              Z.of_nat (length (req_messages r)) <= 2 * W + 1)
               (requests (analyze_all (done ++ todo) fresh))).
  { intros done todo. revert done.
    induction todo as [|[reply game_state] later IH]; intros done Hcalls Hdone.
    - now rewrite app_nil_r.
    - replace (done ++ (reply, game_state) :: later)
        with ((done ++ [(reply, game_state)]) ++ later)
        by now rewrite <- app_assoc.
      apply IH; [now rewrite <- app_assoc|].
      assert (Hrun : forall l1 l2 s, analyze_all (l1 ++ l2) s = analyze_all l2 (analyze_all l1 s)).
      { induction l1 as [|[r g] l1 IHl]; intros l2 s; [reflexivity|].
        cbn [app analyze_all]. apply IHl. }
      rewrite Hrun. cbn [analyze_all].
      assert (Htext_done : Forall (fun call => has_text (fst call)) done).
      { rewrite Hcalls in Htext. now apply Forall_app in Htext. }
      assert (Hh : conversation_history (analyze_all done fresh)
                   = turns_of (last_n W (exchanges fresh done))).
      { rewrite analyze_all_window;
          [| unfold fresh, ai_client_py.init; cbn [max_history]; lia
           | unfold fresh, ai_client_py.init;
             cbn [max_history conversation_history length]; lia
           | assumption].
        change (max_history fresh) with W.
        change (conversation_history fresh) with (@nil Turn).
        now apply last_n_turns_of. }
      assert (Hlen : Z.of_nat (length (conversation_history (analyze_all done fresh)))
                     <= 2 * W).
      { rewrite Hh, length_turns_of.
        pose proof (length_last_n W (exchanges fresh done) HW). lia. }
      destruct (gs_screenshots game_state) as [shots|] eqn:Hkey.
      + rewrite (analyze_requests game_state (analyze_all done fresh) reply shots Hkey).
        apply Forall_app. split; [exact Hdone|].
        constructor; [|constructor]. cbn [req_messages]. split.
        * split.
          -- rewrite Hh. rewrite alternates_turns_of; [reflexivity|].
             apply Forall_last_n, exchanges_roles.
          -- now rewrite last_snoc_some.
        * rewrite length_app. cbn [length]. lia.
      + rewrite analyze_key_error by assumption. exact Hdone. }
  apply (Hgen [] calls eq_refl). constructor.
Qed.

Lemma requests_are_dialogues_witness :
  Forall (fun r => dialogue (req_messages r) /\
                   Z.of_nat (length (req_messages r)) <= 2 * 1 + 1)
    (requests
       (analyze_all [(Returns ["first"], Scenario.auto_state);
                     (Raises "Connection error.", Scenario.auto_state);
                     (Returns ["second"], Scenario.auto_state)]
          (ai_client_py.init 1 150))).
Proof.
  apply requests_are_dialogues.
  - lia.
  - repeat constructor.
Defined.

(* ================================================================== *)
(** ** Further properties of the coordinator *)
(* ================================================================== *)

(** X10.  With an empty store an iteration of the analysis loop only takes the
    pending message, if any, out of the inbox: nothing is sent, nothing
    is queued for the UI, and the time of the last analysis is not
    advanced, so that the periodic check is made again at once in the
    next iteration. *)
Theorem iteration_without_screenshot (tick : Tick) (self : GamePartner) :
  screenshots (screen_capture self) = [] ->
  _analysis_loop_iteration tick self
    = set_message_queue (tl (message_queue self)) self.
Proof.
  intros Hempty.
  destruct (analysis_loop_iteration_cases tick self)
    as [(_ & Hstore & _) | (_ & ->)]; [contradiction|].
  destruct (message_queue self) as [|m rest] eqn:Hq.
  - unfold poll_inbox. rewrite Hq. cbn [tl].
    destruct self. cbn in *. now subst.
  - cbn [tl]. apply (poll_inbox_drops tick self m rest Hq Hempty).
Qed.

Lemma iteration_without_screenshot_witness :
  _analysis_loop_iteration Scenario.tick_both_answered Scenario.hello_no_screenshot
    = set_message_queue [] Scenario.hello_no_screenshot.
Proof.
  now rewrite iteration_without_screenshot.
Defined.

Lemma length_recent_screenshot (self : GamePartner) :
  screenshots (screen_capture self) <> [] ->
  length (Py.slice_from (-1) (get_recent_screenshots (screen_capture self) 1)) = 1%nat.
Proof.
  intros Hstore.
  rewrite get_recent_screenshots_positive by lia.
  assert (Hone : length (last_n 1 (screenshots (screen_capture self))) = 1%nat).
  { pose proof (length_last_n 1 (screenshots (screen_capture self))).
    destruct (screenshots (screen_capture self)); [contradiction|].
    cbn [length] in *. lia. }
  destruct (last_n 1 (screenshots (screen_capture self))) as [|s [|s' l]];
    try discriminate.
  reflexivity.
Qed.

Lemma process_message_request (reply : RemoteOutcome) (self : GamePartner)
    (m : string) :
  screenshots (screen_capture self) <> [] ->
  sent (_process_message reply m self)
    = sent self
        ++ [{| req_state := message_state self m;
               req_messages :=
                 history self
                   ++ [user_turn
                         (human_message (ai_client self) (message_state self m)
                            (Py.slice_from (-1)
                               (get_recent_screenshots (screen_capture self) 1)))] |}].
Proof.
  intros Hstore.
  rewrite (process_message_unfold reply self Hstore m). cbv zeta.
  destruct (Py.truthy (fst (analyze reply (message_state self m) (ai_client self))));
    unfold sent, history;
    cbn [ui_put set_ui_update_queue set_ai_client ai_client];
    apply (analyze_requests (message_state self m) (ai_client self) reply
             (Py.slice_from (-1) (get_recent_screenshots (screen_capture self) 1)));
    reflexivity.
Qed.

Lemma analyze_game_state_request (reply : RemoteOutcome) (self : GamePartner) :
  screenshots (screen_capture self) <> [] ->
  sent (_analyze_game_state reply self)
    = sent self
        ++ [{| req_state := automatic_state self;
               req_messages :=
                 history self
                   ++ [user_turn
                         (human_message (ai_client self) (automatic_state self)
                            (Py.slice_from (-1)
                               (get_recent_screenshots (screen_capture self) 1)))] |}].
Proof.
  intros Hstore.
  rewrite (analyze_game_state_unfold reply self Hstore). cbv zeta.
  destruct (Py.truthy (fst (analyze reply (automatic_state self) (ai_client self))));
    unfold sent, history;
    cbn [ui_put set_ui_update_queue set_ai_client ai_client];
    apply (analyze_requests (automatic_state self) (ai_client self) reply
             (Py.slice_from (-1) (get_recent_screenshots (screen_capture self) 1)));
    reflexivity.
Qed.

(** X11.  Every request of the coordinator carries the whole history of that
    moment followed by one prompt.  The prompt always announces one
    screenshot, however many the store holds, and an empty additional
    context; for a user's message (not empty) it begins with the user's
    text, for the periodic check it is the bare analysis prompt. *)
Theorem coordinator_requests (self : GamePartner) :
  screenshots (screen_capture self) <> [] ->
  current_game self = None ->
  let prompt :=
    base_prompt 1 (max_response_length (ai_client self)) (Some "{}") in
  (forall reply m,
     Py.truthy m = true ->
     exists r,
       sent (_process_message reply m self) = sent self ++ [r] /\
       req_messages r
         = history self
             ++ [user_turn ("User message: " ++ m ++ Py.nl ++ Py.nl ++ prompt)%string]) /\
  (forall reply,
     exists r,
       sent (_analyze_game_state reply self) = sent self ++ [r] /\
       req_messages r = history self ++ [user_turn prompt]).
Proof.
  intros Hstore Hgame prompt.
  pose proof (length_recent_screenshot self Hstore) as Hone.
  split.
  - intros reply m Hm.
    eexists. split; [apply (process_message_request reply self m Hstore)|].
    cbn [req_messages]. do 3 f_equal.
    rewrite (human_message_user_text _ _ _ m); try reflexivity; try assumption.
    now rewrite Hone.
  - intros reply.
    eexists. split; [apply (analyze_game_state_request reply self Hstore)|].
    cbn [req_messages]. do 3 f_equal.
    rewrite human_message_automatic; try reflexivity; try assumption.
    now rewrite Hone.
Qed.

Lemma coordinator_requests_witness :
  exists r,
    sent (_analyze_game_state (Returns ["hi"]) Scenario.hello_pending)
      = sent Scenario.hello_pending ++ [r] /\
    req_messages r
      = history Scenario.hello_pending
          ++ [user_turn (base_prompt 1 150 (Some "{}"))].
Proof.
  destruct (coordinator_requests Scenario.hello_pending) as (_ & Hauto).
  - cbn. discriminate.
  - reflexivity.
  - apply Hauto.
Defined.

(** *** Runs of the coordinator with its producers *)

Lemma user_texts_app (l1 l2 : list Request) :
  user_texts (l1 ++ l2) = user_texts l1 ++ user_texts l2.
Proof.
  induction l1 as [|r l1 IH]; [reflexivity|].
  cbn [app user_texts]. destruct (gs_message (req_state r)); now rewrite IH.
Qed.

Lemma automatic_count_app (l1 l2 : list Request) :
  automatic_count (l1 ++ l2) = (automatic_count l1 + automatic_count l2)%nat.
Proof.
  induction l1 as [|r l1 IH]; [reflexivity|].
  cbn [app automatic_count]. destruct (gs_message (req_state r)); now rewrite IH.
Qed.

Lemma store_inhabited_true (self : GamePartner) :
  store_inhabited self = true <-> screenshots (screen_capture self) <> [].
Proof.
  unfold store_inhabited.
  destruct (screenshots (screen_capture self)); split; congruence.
Qed.

Lemma store_inhabited_false (self : GamePartner) :
  store_inhabited self = false <-> screenshots (screen_capture self) = [].
Proof.
  unfold store_inhabited.
  destruct (screenshots (screen_capture self)); split; congruence.
Qed.

(** What polling the inbox sends. *)
Lemma poll_inbox_effect (tick : Tick) (self : GamePartner) :
  exists new,
    sent (poll_inbox tick self) = sent self ++ new /\
    user_texts new
      = match message_queue self with
        | m :: _ => if store_inhabited self then [m] else []
        | [] => []
        end /\
    automatic_count new = 0%nat.
Proof.
  destruct (message_queue self) as [|m rest] eqn:Hq.
  - exists []. unfold poll_inbox. rewrite Hq, app_nil_r. auto.
  - destruct (store_inhabited self) eqn:Hstore.
    + apply store_inhabited_true in Hstore.
      destruct (poll_inbox_pending_sent tick self m rest Hq Hstore) as (r & Hsent & Hr).
      exists [r]. split; [exact Hsent|].
      unfold for_message in Hr. cbn [user_texts automatic_count]. now rewrite Hr.
    + apply store_inhabited_false in Hstore.
      exists []. rewrite (poll_inbox_drops tick self m rest Hq Hstore), app_nil_r.
      auto.
Qed.

(** What one iteration of the analysis loop does to the requests, the
    inbox and the pacing state. *)
Lemma iteration_effect (tick : Tick) (self : GamePartner) :
  let after := _analysis_loop_iteration tick self in
  let checked := cooldown_elapsed tick self && store_inhabited self in
  (exists new,
     sent after = sent self ++ new /\
     user_texts new
       = match message_queue self with
         | m :: _ => if store_inhabited self then [m] else []
         | [] => []
         end /\
     automatic_count new = if checked then 1%nat else 0%nat) /\
  message_queue after = tl (message_queue self) /\
  analysis_cooldown after = analysis_cooldown self /\
  last_analysis_time after
    = (if checked then current_time tick else last_analysis_time self) /\
  running after = running self /\
  current_game after = current_game self.
Proof.
  intros after checked. unfold after, checked.
  destruct (poll_inbox_frame tick self) as (Hsc & Hmq & Hlast & Hcool & Hrun).
  destruct (poll_inbox_effect tick self) as (new & Hsent & Htexts & Hauto).
  assert (Hgame : current_game (poll_inbox tick self) = current_game self).
  { unfold poll_inbox. destruct (message_queue self) as [|m rest]; [reflexivity|].
    now destruct (process_message_frame (message_reply tick) m
                    (set_message_queue rest self)) as (_ & _ & -> & _). }
  destruct (analysis_loop_iteration_cases tick self)
    as [(Hdue & Hstore & ->) | (Hskip & ->)].
  - assert (Hstore1 : screenshots (screen_capture (poll_inbox tick self)) <> [])
      by now rewrite Hsc.
    destruct (analyze_game_state_sent (auto_reply tick) (poll_inbox tick self) Hstore1)
      as (r2 & Hsent2 & Hr2).
    destruct (analyze_game_state_frame (auto_reply tick) (poll_inbox tick self))
      as (_ & Hmq2 & Hgame2 & _ & Hcool2 & Hrun2).
    apply store_inhabited_true in Hstore. rewrite Hdue, Hstore.
    cbn [andb set_last_analysis_time message_queue analysis_cooldown
           last_analysis_time running current_game].
    split; [|rewrite Hmq2, Hcool2, Hrun2, Hgame2; auto 10].
    exists (new ++ [r2]). unfold sent in *. cbn [set_last_analysis_time ai_client].
    rewrite Hsent2, Hsent, <- app_assoc. split; [reflexivity|].
    rewrite user_texts_app, automatic_count_app, Htexts, Hauto.
    unfold automatic in Hr2. cbn [user_texts automatic_count]. rewrite Hr2.
    rewrite app_nil_r, Hstore. auto.
  - assert (Hchecked : cooldown_elapsed tick self && store_inhabited self = false).
    { destruct Hskip as [-> | Hempty]; [reflexivity|].
      apply store_inhabited_false in Hempty. rewrite Hempty. apply andb_false_r. }
    rewrite Hchecked.
    split; [exists new; auto|auto 10].
Qed.

Lemma spaced_weaken (gap gap' previous : Q) (times : list Q) :
  (gap' <= gap)%Q -> spaced gap previous times -> spaced gap' previous times.
Proof.
  intros Hle. revert previous.
  induction times as [|t later IH]; intros previous; [auto|].
  cbn [spaced]. intros [Hfirst Hrest]. split; [lra|now apply IH].
Qed.

(** The pacing of the periodic check over a run from any state. *)
Lemma steps_pacing (l : list Step) (self : GamePartner) :
  spaced (analysis_cooldown self) (last_analysis_time self) (check_times l self) /\
  automatic_count (sent (steps l self))
    = (automatic_count (sent self) + length (check_times l self))%nat.
Proof.
  revert self. induction l as [|s later IH]; intros self.
  - cbn. split; [exact I|lia].
  - cbn [steps check_times].
    destruct (IH (step s self)) as (IHspaced & IHcount).
    destruct s as [tick|img|msg]; cbn [step] in *.
    + destruct (running self) eqn:Hrun; cbn [andb].
      * destruct (iteration_effect tick self)
          as ((new & Hsent & _ & Hauto) & _ & Hcool & Hlast & _).
        rewrite Hcool, Hlast in IHspaced. rewrite IHcount.
        rewrite Hsent, automatic_count_app, Hauto.
        destruct (cooldown_elapsed tick self && store_inhabited self) eqn:Hchecked.
        -- cbn [spaced length]. split; [split; [|exact IHspaced]|lia].
           apply andb_prop in Hchecked. destruct Hchecked as (Hdue & _).
           unfold cooldown_elapsed in Hdue. apply Qle_bool_iff in Hdue. lra.
        -- split; [exact IHspaced|lia].
      * split; [exact IHspaced|exact IHcount].
    + split; [exact IHspaced|exact IHcount].
    + split; [exact IHspaced|exact IHcount].
Qed.

(** X12.  From a freshly started coordinator, whatever the configured cooldown
    and however the analysis loop, the capture loop and the user's
    messages interleave: the clock readings at which the periodic check
    sends its request are at least five seconds apart, and at least the
    configured cooldown apart; and the automatic requests sent are
    exactly those of the periodic check. *)
Theorem automatic_requests_spaced (config : Config) (l : list Step) :
  let times := check_times l (main_py.init config) in
  spaced 5 0 times /\
  spaced (cooldown_seconds config) 0 times /\
  automatic_count (sent (steps l (main_py.init config))) = length times.
Proof.
  intros times. unfold times.
  destruct (steps_pacing l (main_py.init config)) as (Hspaced & Hcount).
  change (last_analysis_time (main_py.init config)) with 0%Q in Hspaced.
  change (analysis_cooldown (main_py.init config))
    with (Qmax (cooldown_seconds config) 5) in Hspaced.
  split; [|split].
  - apply (spaced_weaken _ _ _ _ (Q.le_max_r _ _) Hspaced).
  - apply (spaced_weaken _ _ _ _ (Q.le_max_l _ _) Hspaced).
  - exact Hcount.
Qed.

(** X13.  With room for at least one screenshot and a screenshot in the store,
    no message is lost, repeated or reordered: at any moment of any run,
    the user texts of the requests sent so far, followed by the messages
    still in the inbox, are the texts sent before, the inbox of before,
    and the texts that the callback was called with, in that order. *)
Theorem messages_sent_in_order (l : list Step) (self : GamePartner) :
  1 <= max_screenshots (screen_capture self) ->
  screenshots (screen_capture self) <> [] ->
  user_texts (sent (steps l self)) ++ message_queue (steps l self)
    = user_texts (sent self) ++ message_queue self ++ puts l.
Proof.
  revert self. induction l as [|s later IH]; intros self Hmax Hstore.
  - cbn. now rewrite app_nil_r.
  - cbn [steps].
    destruct (step_keeps_store_inhabited s self Hmax Hstore) as (Hstore' & Hmax').
    rewrite (IH (step s self) Hmax' Hstore').
    destruct s as [tick|img|msg]; cbn [step puts].
    + destruct (running self); [|reflexivity].
      destruct (iteration_effect tick self)
        as ((new & Hsent & Htexts & _) & Hmq & _).
      rewrite Hsent, user_texts_app, Htexts, Hmq.
      apply store_inhabited_true in Hstore. rewrite Hstore.
      destruct (message_queue self) as [|m rest]; cbn [tl app];
        now rewrite <- !app_assoc.
    + reflexivity.
    + unfold put_message. cbn [sent set_message_queue ai_client message_queue].
      now rewrite <- !app_assoc.
Qed.

Lemma messages_sent_in_order_witness :
  let after :=
    steps [Put "one"; Iterate Scenario.tick_early; Put "two";
           Iterate Scenario.tick_early; Iterate Scenario.tick_early]
      Scenario.hello_pending in
  user_texts (sent after) ++ message_queue after = ["hello"; "one"; "two"].
Proof.
  cbv zeta. rewrite messages_sent_in_order.
  - reflexivity.
  - cbn. lia.
  - cbn. discriminate.
Defined.

(* ================================================================== *)
(** ** Text entry: [strip] and the inbox *)
(* ================================================================== *)

Lemma lstrip_head (s : string) :
  PyStr.lstrip s = "" \/
  exists c rest, PyStr.lstrip s = String c rest /\ PyStr.isspace c = false.
Proof.
  induction s as [|c rest IH]; [now left|].
  cbn [PyStr.lstrip]. destruct (PyStr.isspace c) eqn:Hc; [exact IH|].
  right. eauto.
Qed.

Lemma lstrip_fixed (c : ascii) (rest : string) :
  PyStr.isspace c = false -> PyStr.lstrip (String c rest) = String c rest.
Proof. intros Hc. cbn [PyStr.lstrip]. now rewrite Hc. Qed.

Lemma rstrip_idempotent (s : string) :
  PyStr.rstrip (PyStr.rstrip s) = PyStr.rstrip s.
Proof.
  induction s as [|c rest IH]; [reflexivity|].
  cbn [PyStr.rstrip].
  destruct (PyStr.rstrip rest) as [|k kept] eqn:Hr.
  - destruct (PyStr.isspace c) eqn:Hc; [reflexivity|].
    cbn [PyStr.rstrip]. now rewrite Hc.
  - cbn [PyStr.rstrip]. cbn [PyStr.rstrip] in IH.
    destruct (match PyStr.rstrip kept with
              | "" => if PyStr.isspace k then "" else String k ""
              | String a s0 => String k (String a s0)
              end) eqn:E; [discriminate|].
    now rewrite IH.
Qed.

(** [rstrip] keeps the first character of a text that does not begin
    with white space. *)
Lemma rstrip_head (c : ascii) (rest : string) :
  PyStr.isspace c = false ->
  exists kept, PyStr.rstrip (String c rest) = String c kept.
Proof.
  intros Hc. cbn [PyStr.rstrip].
  destruct (PyStr.rstrip rest) as [|k kept].
  - rewrite Hc. eauto.
  - eauto.
Qed.

Lemma rstrip_blank (s : string) :
  PyStr.rstrip s = "" <-> blank s = true.
Proof.
  induction s as [|c rest IH]; [now split|].
  cbn [PyStr.rstrip blank].
  destruct (PyStr.rstrip rest) as [|k kept].
  - destruct (PyStr.isspace c); cbn [andb].
    + split; intros _; [now apply IH|reflexivity].
    + split; discriminate.
  - split; [discriminate|].
    intros H. apply andb_prop in H. destruct H as [_ H].
    apply IH in H. discriminate.
Qed.

Lemma lstrip_blank (s : string) :
  blank (PyStr.lstrip s) = blank s.
Proof.
  induction s as [|c rest IH]; [reflexivity|].
  cbn [PyStr.lstrip blank]. destruct (PyStr.isspace c) eqn:Hc; cbn [andb].
  - exact IH.
  - cbn [blank]. now rewrite Hc.
Qed.

(** [strip]: the result is empty exactly for a text of white space only;
    stripping again, on either side or on both, changes nothing more; and
    a result that is not empty begins with a character that is not white
    space. *)
Lemma strip_fixpoints (s : string) :
  (PyStr.strip s = "" <-> blank s = true) /\
  PyStr.strip (PyStr.strip s) = PyStr.strip s /\
  PyStr.lstrip (PyStr.strip s) = PyStr.strip s /\
  PyStr.rstrip (PyStr.strip s) = PyStr.strip s /\
  (forall c rest, PyStr.strip s = String c rest -> PyStr.isspace c = false).
Proof.
  unfold PyStr.strip.
  assert (Hl : PyStr.lstrip (PyStr.rstrip (PyStr.lstrip s))
               = PyStr.rstrip (PyStr.lstrip s)).
  { destruct (lstrip_head s) as [-> | (c & rest & -> & Hc)]; [reflexivity|].
    destruct (rstrip_head c rest Hc) as (kept & ->). now apply lstrip_fixed. }
  split; [|split; [|split; [|split]]].
  - rewrite rstrip_blank. now rewrite lstrip_blank.
  - rewrite Hl. apply rstrip_idempotent.
  - exact Hl.
  - apply rstrip_idempotent.
  - intros c rest Hs.
    destruct (lstrip_head s) as [Hnil | (c' & rest' & Hls & Hc)].
    + rewrite Hnil in Hs. discriminate.
    + rewrite Hls in Hs. destruct (rstrip_head c' rest' Hc) as (kept & Hk).
      rewrite Hk in Hs. now inversion Hs; subst.
Qed.

(** A text that [strip] leaves not empty is stripped. *)
Lemma strip_stripped (s : string) :
  Py.truthy (PyStr.strip s) = true -> stripped (PyStr.strip s).
Proof.
  intros Ht. split; [exact Ht|]. apply strip_fixpoints.
Qed.

(** X14.  The input dialog only ever adds to its queue, at the back, and what it
    adds is stripped text that is not empty: blank input is never queued,
    and hiding, showing or toggling the dialog queues nothing. *)
Theorem input_dialog_queues_stripped_text (l : list input_dialog_py.Action)
    (self : input_dialog_py.InputDialog) :
  exists added,
    input_dialog_py.message_queue (input_dialog_py.acts l self)
      = input_dialog_py.message_queue self ++ added /\
    Forall stripped added /\
    (Forall (fun a => a <> input_dialog_py.Submit) l -> added = []).
Proof.
  revert self. induction l as [|a later IH]; intros self.
  - exists []. cbn. rewrite app_nil_r. auto.
  - cbn [input_dialog_py.acts].
    destruct (IH (input_dialog_py.act a self)) as (added & Hq & Hadded & Hnone).
    destruct a; cbn [input_dialog_py.act] in *.
    + exists added. split; [exact Hq|]. split; [exact Hadded|].
      intros H. inversion H; subst. auto.
    + unfold input_dialog_py._submit in *.
      destruct (Py.truthy (PyStr.strip (input_dialog_py.text_input self))) eqn:Ht.
      * exists (PyStr.strip (input_dialog_py.text_input self) :: added).
        cbn in Hq. rewrite Hq, <- app_assoc. split; [reflexivity|].
        split; [constructor; [now apply strip_stripped|exact Hadded]|].
        intros H. inversion H; subst. congruence.
      * exists added. split; [exact Hq|]. split; [exact Hadded|].
        intros H. inversion H; subst. congruence.
    + exists added. split.
      * rewrite Hq. unfold input_dialog_py.toggle, input_dialog_py.show.
        now destruct (input_dialog_py.is_visible self).
      * split; [exact Hadded|]. intros H. inversion H; subst. auto.
    + exists added. split.
      * rewrite Hq. unfold input_dialog_py.show.
        now destruct (input_dialog_py.is_visible self).
      * split; [exact Hadded|]. intros H. inversion H; subst. auto.
    + exists added. split; [exact Hq|]. split; [exact Hadded|].
      intros H. inversion H; subst. auto.
Qed.

(* ================================================================== *)
(** ** The overlay window *)
(* ================================================================== *)

Lemma update_messages_frame (o : overlay_py.GameOverlay) :
  overlay_py.position (overlay_py.update_messages o) = overlay_py.position o /\
  overlay_py.visible_messages (overlay_py.update_messages o)
    = overlay_py.visible_messages o /\
  overlay_py.is_visible (overlay_py.update_messages o) = overlay_py.is_visible o /\
  overlay_py.geometry (overlay_py.update_messages o) = overlay_py.geometry o /\
  overlay_py.width (overlay_py.update_messages o) = overlay_py.width o /\
  overlay_py.height (overlay_py.update_messages o) = overlay_py.height o /\
  overlay_py.mapped (overlay_py.update_messages o) = overlay_py.mapped o.
Proof.
  unfold overlay_py.update_messages.
  destruct (Py.pop_while_longer _ _) as [[popped rest] raised].
  cbn. auto 10.
Qed.

Lemma position_cycle_position (screen : Z * Z) (o : overlay_py.GameOverlay) :
  overlay_py.position (overlay_py.cycle_position screen o)
    = next_position (overlay_py.position o).
Proof.
  unfold overlay_py.cycle_position, next_position, overlay_py.update_position.
  destruct (PyStr.index (overlay_py.position o) overlay_py.POSITION_CYCLE);
    now rewrite (proj1 (update_messages_frame _)).
Qed.

Lemma position_cycle_times (screens : list (Z * Z)) (o : overlay_py.GameOverlay) :
  overlay_py.position (cycle_times screens o)
    = Nat.iter (length screens) next_position (overlay_py.position o).
Proof.
  revert o. induction screens as [|screen later IH]; intros o; [reflexivity|].
  cbn [cycle_times length]. rewrite IH, position_cycle_position.
  cbn [Nat.iter]. apply Nat.iter_swap.
Qed.

(** X15.  After [cycle_position] the position is one of the eight names of the
    cycle, whatever it was before (a name from the configuration that is
    not in the cycle is replaced by the first one). *)
Theorem cycle_position_stays_in_cycle (screen : Z * Z) (o : overlay_py.GameOverlay) :
  In (overlay_py.position (overlay_py.cycle_position screen o))
    overlay_py.POSITION_CYCLE /\
  (~ In (overlay_py.position o) overlay_py.POSITION_CYCLE ->
   overlay_py.position (overlay_py.cycle_position screen o) = "bottom-right").
Proof.
  rewrite position_cycle_position. unfold next_position.
  assert (Hidx : forall p l, PyStr.index p l = None -> ~ In p l).
  { intros p l. induction l as [|y rest IH]; cbn [PyStr.index]; [auto|].
    destruct (String.eqb_spec y p); [discriminate|].
    destruct (PyStr.index p rest); [discriminate|].
    intros _ [Heq | Hin]; [contradiction|]. now apply IH. }
  assert (Hsome : forall p l i, PyStr.index p l = Some i -> In p l).
  { intros p l. induction l as [|y rest IH]; cbn [PyStr.index]; [discriminate|].
    intros i. destruct (String.eqb_spec y p); [left; assumption|].
    destruct (PyStr.index p rest) eqn:E; [|discriminate].
    intros _. right. now apply (IH n0). }
  destruct (PyStr.index (overlay_py.position o) overlay_py.POSITION_CYCLE) as [i|] eqn:E.
  - split.
    + apply nth_In. change (length overlay_py.POSITION_CYCLE) with 8%nat.
      apply Nat.mod_upper_bound. discriminate.
    + intros Hout. exfalso. apply Hout. now apply (Hsome _ _ i).
  - split; [cbn; auto|reflexivity].
Qed.

(** X16.  From a position of the cycle, eight calls of [cycle_position] lead
    back to it, and fewer (but at least one) lead somewhere else: the
    cycle visits the eight positions. *)
Theorem cycle_position_period (screens : list (Z * Z)) (o : overlay_py.GameOverlay) :
  In (overlay_py.position o) overlay_py.POSITION_CYCLE ->
  (length screens = 8%nat ->
   overlay_py.position (cycle_times screens o) = overlay_py.position o) /\
  ((0 < length screens < 8)%nat ->
   overlay_py.position (cycle_times screens o) <> overlay_py.position o).
Proof.
  intros Hin. rewrite position_cycle_times.
  generalize dependent (overlay_py.position o). intros p Hin.
  split.
  - intros ->. cbn in Hin.
    repeat (destruct Hin as [<- | Hin]; [reflexivity|]). contradiction.
  - intros Hk.
    assert (Hcases : In (length screens) [1; 2; 3; 4; 5; 6; 7]%nat).
    { cbn. lia. }
    cbn in Hin.
    repeat (destruct Hin as [<- | Hin];
            [cbn in Hcases;
             repeat (destruct Hcases as [<- | Hcases]; [vm_compute; discriminate|]);
             contradiction|]).
    contradiction.
Qed.

Lemma cycle_position_period_witness :
  overlay_py.position
    (cycle_times (repeat (1920, 1080) 8) (overlay_py.init 5 400 300 (Some "top-left")))
    = "top-left".
Proof.
  destruct (cycle_position_period (repeat (1920, 1080) 8)
              (overlay_py.init 5 400 300 (Some "top-left"))) as (Hback & _).
  - cbn. auto 10.
  - now rewrite Hback.
Defined.

(** X17.  On a screen that leaves forty pixels around the window,
    [update_position] places the window entirely on the screen, at least
    forty pixels from every edge, for every position name (an unknown
    name is placed as top-left). *)
Theorem update_position_on_screen (screen : Z * Z) (o : overlay_py.GameOverlay) :
  overlay_py.width o + 80 <= fst screen ->
  overlay_py.height o + 80 <= snd screen ->
  exists x y,
    overlay_py.geometry (overlay_py.update_position screen o) = Some (x, y) /\
    40 <= x /\ x + overlay_py.width o <= fst screen - 40 /\
    40 <= y /\ y + overlay_py.height o <= snd screen - 40.
Proof.
  intros Hw Hh. unfold overlay_py.update_position.
  destruct (update_messages_frame
              (overlay_py.set_geometry
                 (overlay_py.place (overlay_py.position o) (fst screen) (snd screen)
                    (overlay_py.width o) (overlay_py.height o)) o))
    as (_ & _ & _ & Hgeo & _).
  rewrite Hgeo. cbn [overlay_py.set_geometry overlay_py.geometry].
  unfold overlay_py.place, overlay_py.side_padding.
  pose proof (Z.div_mod (fst screen - overlay_py.width o) 2) as Hdx.
  pose proof (Z.mod_pos_bound (fst screen - overlay_py.width o) 2) as Hmx.
  pose proof (Z.div_mod (snd screen - overlay_py.height o) 2) as Hdy.
  pose proof (Z.mod_pos_bound (snd screen - overlay_py.height o) 2) as Hmy.
  repeat match goal with
         | |- context [String.eqb ?a ?b] => destruct (String.eqb a b)
         end;
    eexists; eexists; (split; [reflexivity|]); lia.
Qed.

Lemma update_position_on_screen_witness :
  exists x y,
    overlay_py.geometry
      (overlay_py.update_position (1920, 1080)
         (overlay_py.init 5 400 300 (Some "bottom-middle")))
      = Some (x, y) /\
    40 <= x /\ x + 400 <= 1920 - 40 /\ 40 <= y /\ y + 300 <= 1080 - 40.
Proof.
  apply (update_position_on_screen (1920, 1080)
           (overlay_py.init 5 400 300 (Some "bottom-middle"))); cbn; lia.
Defined.

(* ================================================================== *)
(** ** The UI pump *)
(* ================================================================== *)

(** What trimming keeps and destroys. *)
Lemma update_messages_split (o : overlay_py.GameOverlay) :
  overlay_py.destroyed (overlay_py.update_messages o)
    ++ overlay_py.messages (overlay_py.update_messages o)
    = overlay_py.destroyed o ++ overlay_py.messages o.
Proof.
  unfold overlay_py.update_messages.
  pose proof (pop_while_longer_split (overlay_py.visible_messages o)
                (overlay_py.messages o)) as Hsplit.
  destruct (Py.pop_while_longer _ _) as [[popped rest] raised].
  cbn in *. now rewrite <- app_assoc, Hsplit.
Qed.

Lemma update_messages_bounded (o : overlay_py.GameOverlay) :
  0 <= overlay_py.visible_messages o ->
  overlay_py.messages (overlay_py.update_messages o)
    = last_n (overlay_py.visible_messages o) (overlay_py.messages o).
Proof.
  intros Hv. unfold overlay_py.update_messages.
  now rewrite pop_while_longer_nonneg by assumption.
Qed.

Lemma update_position_messages (screen : Z * Z) (o : overlay_py.GameOverlay) :
  overlay_py.visible_messages (overlay_py.update_position screen o)
    = overlay_py.visible_messages o /\
  overlay_py.destroyed (overlay_py.update_position screen o)
    ++ overlay_py.messages (overlay_py.update_position screen o)
    = overlay_py.destroyed o ++ overlay_py.messages o /\
  (0 <= overlay_py.visible_messages o ->
   overlay_py.messages (overlay_py.update_position screen o)
     = last_n (overlay_py.visible_messages o) (overlay_py.messages o)).
Proof.
  unfold overlay_py.update_position.
  rewrite (proj1 (proj2 (update_messages_frame _))), update_messages_split.
  split; [reflexivity|]. split; [reflexivity|].
  intros Hv. now rewrite update_messages_bounded.
Qed.

(** One closure: the frames it adds, and what it keeps of the list. *)
Lemma run_update_messages (now : Q) (screen : Z * Z) (update : UiInstruction)
    (o : overlay_py.GameOverlay) :
  let added := frames_of (fun _ => now) 0 [update] in
  overlay_py.visible_messages (run_update now screen update o)
    = overlay_py.visible_messages o /\
  overlay_py.destroyed (run_update now screen update o)
    ++ overlay_py.messages (run_update now screen update o)
    = overlay_py.destroyed o ++ overlay_py.messages o ++ added /\
  (0 <= overlay_py.visible_messages o ->
   Z.of_nat (length (overlay_py.messages o)) <= overlay_py.visible_messages o ->
   overlay_py.messages (run_update now screen update o)
     = last_n (overlay_py.visible_messages o) (overlay_py.messages o ++ added)).
Proof.
  destruct update as [text is_ai| | |]; cbn [run_update frames_of]; cbv zeta;
    rewrite ?app_nil_r.
  - unfold overlay_py.add_message.
    rewrite (proj1 (proj2 (update_messages_frame _))), update_messages_split.
    split; [reflexivity|]. split; [reflexivity|].
    intros Hv _. now rewrite update_messages_bounded.
  - unfold overlay_py.toggle_visibility.
    destruct (overlay_py.is_visible o).
    + split; [reflexivity|]. split; [reflexivity|].
      intros Hv Hlen. symmetry. now apply last_n_all.
    + destruct (update_position_messages screen (overlay_py.deiconify o))
        as (Hvis & Hsplit & Hkeep).
      cbn [overlay_py.set_is_visible overlay_py.visible_messages overlay_py.destroyed
             overlay_py.messages].
      split; [exact Hvis|]. split; [exact Hsplit|]. intros Hv _. now apply Hkeep.
  - unfold overlay_py.cycle_position.
    destruct (PyStr.index (overlay_py.position o) overlay_py.POSITION_CYCLE);
      match goal with
      | |- context [overlay_py.update_position screen ?o'] =>
          destruct (update_position_messages screen o') as (Hvis & Hsplit & Hkeep)
      end;
      (split; [exact Hvis|]); (split; [exact Hsplit|]); intros Hv _; now apply Hkeep.
  - split; [reflexivity|]. split; [reflexivity|].
    intros Hv Hlen. symmetry. now apply last_n_all.
Qed.

Lemma frames_of_cons (clock : nat -> Q) (i : nat) (update : UiInstruction)
    (later : list UiInstruction) :
  frames_of clock i (update :: later)
    = frames_of (fun _ => clock i) 0 [update] ++ frames_of clock (S i) later.
Proof. destruct update; reflexivity. Qed.

Lemma run_updates_messages (clock : nat -> Q) (screen : Z * Z)
    (updates : list UiInstruction) (i : nat) (o : overlay_py.GameOverlay) :
  overlay_py.destroyed (run_updates clock screen i updates o)
    ++ overlay_py.messages (run_updates clock screen i updates o)
    = overlay_py.destroyed o ++ overlay_py.messages o ++ frames_of clock i updates /\
  (0 <= overlay_py.visible_messages o ->
   Z.of_nat (length (overlay_py.messages o)) <= overlay_py.visible_messages o ->
   overlay_py.messages (run_updates clock screen i updates o)
     = last_n (overlay_py.visible_messages o)
         (overlay_py.messages o ++ frames_of clock i updates)).
Proof.
  revert i o. induction updates as [|update later IH]; intros i o.
  - cbn [run_updates frames_of]. rewrite !app_nil_r. split; [reflexivity|].
    intros Hv Hlen. symmetry. now apply last_n_all.
  - cbn [run_updates]. rewrite frames_of_cons.
    destruct (run_update_messages (clock i) screen update o) as (Hvis & Hsplit & Hkeep).
    cbv zeta in Hsplit, Hkeep.
    destruct (IH (S i) (run_update (clock i) screen update o)) as (IHsplit & IHkeep).
    split.
    + rewrite IHsplit, app_assoc, Hsplit. now rewrite <- !app_assoc.
    + intros Hv Hlen. rewrite Hvis in IHkeep. rewrite IHkeep.
      * rewrite Hkeep by assumption.
        rewrite last_n_app_last_n by assumption. now rewrite <- app_assoc.
      * assumption.
      * rewrite Hkeep by assumption. rewrite length_last_n by assumption. lia.
Qed.

(** X18.  One run of the UI pump empties the queue of UI updates and runs its
    closures oldest first.  No message frame is lost: the frames
    destroyed so far, followed by the frames on screen, are those of
    before followed by one frame per queued message, in the order of the
    queue, for a user's and for an AI message alike.  When the list on
    screen was within [visible_messages], it is afterwards the
    [visible_messages] most recent frames. *)
Theorem process_updates_shows_queue (clock : nat -> Q) (screen : Z * Z) (app : App) :
  let after := process_updates clock screen app in
  let frames := frames_of clock 0 (ui_update_queue (partner app)) in
  ui_update_queue (partner after) = [] /\
  overlay_py.destroyed (overlay after) ++ overlay_py.messages (overlay after)
    = overlay_py.destroyed (overlay app) ++ overlay_py.messages (overlay app) ++ frames /\
  (0 <= overlay_py.visible_messages (overlay app) ->
   Z.of_nat (length (overlay_py.messages (overlay app)))
     <= overlay_py.visible_messages (overlay app) ->
   overlay_py.messages (overlay after)
     = last_n (overlay_py.visible_messages (overlay app))
         (overlay_py.messages (overlay app) ++ frames)).
Proof.
  cbv zeta. unfold process_updates.
  cbn [set_overlay set_partner partner overlay set_ui_update_queue ui_update_queue].
  split; [reflexivity|].
  apply run_updates_messages.
Qed.

Lemma process_updates_shows_queue_witness :
  let app :=
    set_partner
      (_analysis_loop_iteration Scenario.tick_early Scenario.hello_pending)
      AppScenario.started in
  map overlay_py.frame_text
    (overlay_py.messages (overlay (process_updates (fun _ => 2%Q) (1920, 1080) app)))
    = ["hello"; "hi"].
Proof.
  intros app.
  destruct (process_updates_shows_queue (fun _ => 2%Q) (1920, 1080) app)
    as (_ & _ & Hkeep).
  rewrite Hkeep; [reflexivity | cbn; lia | cbn; lia].
Defined.

Lemma update_position_window (screen : Z * Z) (o : overlay_py.GameOverlay) :
  overlay_py.is_visible (overlay_py.update_position screen o) = overlay_py.is_visible o /\
  overlay_py.mapped (overlay_py.update_position screen o) = overlay_py.mapped o /\
  overlay_py.position (overlay_py.update_position screen o) = overlay_py.position o.
Proof.
  unfold overlay_py.update_position.
  destruct (update_messages_frame
              (overlay_py.set_geometry
                 (overlay_py.place (overlay_py.position o) (fst screen) (snd screen)
                    (overlay_py.width o) (overlay_py.height o)) o))
    as (Hpos & _ & Hvis & _ & _ & _ & Hmapped).
  rewrite Hpos, Hvis, Hmapped. auto.
Qed.

(** One closure, seen from the window. *)
Lemma run_update_window (now : Q) (screen : Z * Z) (update : UiInstruction)
    (o : overlay_py.GameOverlay) :
  (overlay_py.is_visible (run_update now screen update o),
   overlay_py.mapped (run_update now screen update o))
    = window_step update (overlay_py.is_visible o, overlay_py.mapped o) /\
  overlay_py.position (run_update now screen update o)
    = Nat.iter (cycles [update]) next_position (overlay_py.position o).
Proof.
  destruct update as [text is_ai| | |]; cbn [run_update window_step cycles Nat.iter fst].
  - unfold overlay_py.add_message.
    destruct (update_messages_frame
                (overlay_py.set_messages
                   (overlay_py.messages o
                      ++ [{| overlay_py.frame_time := now; overlay_py.frame_text := text |}])
                   (overlay_py.destroyed o) o))
      as (Hpos & _ & Hvis & _ & _ & _ & Hmapped).
    now rewrite Hpos, Hvis, Hmapped.
  - unfold overlay_py.toggle_visibility.
    destruct (overlay_py.is_visible o) eqn:Hvis; cbn [negb].
    + split; reflexivity.
    + destruct (update_position_window screen (overlay_py.deiconify o))
        as (_ & Hmapped & Hpos).
      cbn [overlay_py.set_is_visible overlay_py.is_visible overlay_py.mapped
             overlay_py.position].
      rewrite Hmapped, Hpos. split; reflexivity.
  - rewrite position_cycle_position. split; [|reflexivity].
    unfold overlay_py.cycle_position.
    destruct (PyStr.index (overlay_py.position o) overlay_py.POSITION_CYCLE);
      match goal with
      | |- context [overlay_py.update_position screen ?o'] =>
          destruct (update_position_window screen o') as (-> & -> & _)
      end; reflexivity.
  - split; reflexivity.
Qed.

Lemma window_after_flag (updates : list UiInstruction) (w : bool * bool) :
  fst (window_after updates w)
    = if Nat.even (toggles updates) then fst w else negb (fst w).
Proof.
  revert w. induction updates as [|update later IH]; intros w; [reflexivity|].
  cbn [window_after]. rewrite IH.
  destruct update as [text is_ai| | |]; try reflexivity.
  change (toggles (toggle_visibility :: later)) with (S (toggles later)).
  rewrite Nat.even_succ, <- Nat.negb_even.
  cbn [window_step fst].
  destruct (Nat.even (toggles later)), (fst w); reflexivity.
Qed.

Lemma window_after_consistent (updates : list UiInstruction) (w : bool * bool) :
  (fst w = true -> snd w = true) ->
  fst (window_after updates w) = true -> snd (window_after updates w) = true.
Proof.
  revert w. induction updates as [|update later IH]; intros w Hw; [exact Hw|].
  cbn [window_after]. apply IH.
  destruct update as [text is_ai| | |]; cbn [window_step fst snd]; auto.
Qed.

Lemma window_after_idle (updates : list UiInstruction) (w : bool * bool) :
  Forall (fun u => u <> toggle_visibility /\ u <> show_input) updates ->
  window_after updates w = w.
Proof.
  intros Hidle. revert w.
  induction Hidle as [|update later [Ht Hs] _ IH]; intros w; [reflexivity|].
  cbn [window_after]. rewrite IH.
  destruct update; try reflexivity; congruence.
Qed.

(** X19.  Over one run of the UI pump, the window follows the machine
    with two bits, the attribute [is_visible] and whether the window is on
    the screen: each visibility toggle withdraws the window when the
    attribute is set and shows it when it is not, and the attribute
    follows, so that the attribute is flipped once per toggle; showing the
    input puts the window on the screen and leaves the attribute as it
    is, so that a window hidden by a toggle is on the screen again while
    the attribute still says hidden.  Messages that arrive and position
    changes neither show nor hide the window.  A window whose attribute
    says visible is on the screen, before the pump and hence after it.
    The position advances one step of the cycle per position change. *)
Theorem process_updates_window_state (clock : nat -> Q) (screen : Z * Z)
    (app : App) :
  let queue := ui_update_queue (partner app) in
  let before := overlay app in
  let after := overlay (process_updates clock screen app) in
  (overlay_py.is_visible after, overlay_py.mapped after)
    = window_after queue (overlay_py.is_visible before, overlay_py.mapped before) /\
  overlay_py.is_visible after
    = (if Nat.even (toggles queue) then overlay_py.is_visible before
       else negb (overlay_py.is_visible before)) /\
  (Forall (fun u => u <> toggle_visibility /\ u <> show_input) queue ->
   overlay_py.is_visible after = overlay_py.is_visible before /\
   overlay_py.mapped after = overlay_py.mapped before) /\
  ((overlay_py.is_visible before = true -> overlay_py.mapped before = true) ->
   overlay_py.is_visible after = true -> overlay_py.mapped after = true) /\
  overlay_py.position after
    = Nat.iter (cycles queue) next_position (overlay_py.position before).
Proof.
  cbv zeta. unfold process_updates. cbn [set_overlay set_partner partner overlay].
  assert (Hrun : forall updates i o,
             (overlay_py.is_visible (run_updates clock screen i updates o),
              overlay_py.mapped (run_updates clock screen i updates o))
               = window_after updates (overlay_py.is_visible o, overlay_py.mapped o) /\
             overlay_py.position (run_updates clock screen i updates o)
               = Nat.iter (cycles updates) next_position (overlay_py.position o)).
  { induction updates as [|update later IH]; intros i o; [split; reflexivity|].
    cbn [run_updates window_after].
    destruct (IH (S i) (run_update (clock i) screen update o)) as (-> & ->).
    destruct (run_update_window (clock i) screen update o) as (-> & ->).
    split; [reflexivity|].
    destruct update as [text is_ai| | |]; try reflexivity.
    change (cycles (cycle_position :: later)) with (S (cycles later)).
    change (Nat.iter (cycles [cycle_position]) next_position (overlay_py.position o))
      with (next_position (overlay_py.position o)).
    change (Nat.iter (S (cycles later)) next_position (overlay_py.position o))
      with (next_position
              (Nat.iter (cycles later) next_position (overlay_py.position o))).
    apply Nat.iter_swap. }
  destruct (Hrun (ui_update_queue (partner app)) 0%nat (overlay app)) as (Hwin & Hpos).
  set (w := window_after (ui_update_queue (partner app))
              (overlay_py.is_visible (overlay app), overlay_py.mapped (overlay app)))
    in *.
  assert (Hflag : overlay_py.is_visible
                    (run_updates clock screen 0 (ui_update_queue (partner app))
                       (overlay app)) = fst w) by now rewrite <- Hwin.
  assert (Hmapped : overlay_py.mapped
                      (run_updates clock screen 0 (ui_update_queue (partner app))
                         (overlay app)) = snd w) by now rewrite <- Hwin.
  split; [exact Hwin|]. split; [|split; [|split]].
  - rewrite Hflag. unfold w. now rewrite window_after_flag.
  - intros Hidle. rewrite Hflag, Hmapped. unfold w.
    rewrite (window_after_idle _ _ Hidle). split; reflexivity.
  - intros Hbefore. rewrite Hflag, Hmapped. unfold w.
    now apply window_after_consistent.
  - exact Hpos.
Qed.

(** An instance: a toggle hides the window, and showing the input puts
    it back on the screen while the attribute still says hidden. *)
Lemma process_updates_window_state_witness :
  let app :=
    set_partner
      (ui_put show_input (ui_put toggle_visibility (partner AppScenario.started)))
      AppScenario.started in
  overlay_py.is_visible (overlay AppScenario.started) = true /\
  overlay_py.is_visible (overlay (process_updates (fun _ => 2%Q) (1920, 1080) app))
    = false /\
  overlay_py.mapped (overlay (process_updates (fun _ => 2%Q) (1920, 1080) app))
    = true.
Proof.
  intros app.
  destruct (process_updates_window_state (fun _ => 2%Q) (1920, 1080) app)
    as (Hwin & _).
  cbv zeta in Hwin.
  pose proof (f_equal fst Hwin) as Hflag. pose proof (f_equal snd Hwin) as Hmapped.
  cbn [fst snd] in Hflag, Hmapped.
  split; [reflexivity|]. split; [rewrite Hflag | rewrite Hmapped]; reflexivity.
Defined.

(* ================================================================== *)
(** ** Hotkeys *)
(* ================================================================== *)

Lemma key_in_spec (key : Key) (pressed : list Key) :
  key_in key pressed = true <-> In key pressed.
Proof.
  unfold key_in. destruct (in_dec Key_eq_dec key pressed); split; auto; discriminate.
Qed.

Lemma key_in_add (watched key : Key) (pressed : list Key) :
  key_in watched (key_add key pressed)
    = flag_after_press watched key (key_in watched pressed).
Proof.
  unfold flag_after_press.
  apply eq_true_iff_eq. rewrite key_in_spec.
  unfold key_add.
  destruct (in_dec Key_eq_dec key pressed) as [Hin|Hout];
    destruct (Key_eq_dec key watched) as [->|Hne];
    rewrite ?key_in_spec; cbn [In]; intuition congruence.
Qed.

Lemma key_in_discard (watched key : Key) (pressed : list Key) :
  key_in watched (key_discard key pressed)
    = flag_after_release watched key (key_in watched pressed).
Proof.
  unfold flag_after_release, key_discard.
  apply eq_true_iff_eq. rewrite key_in_spec.
  destruct (Key_eq_dec key watched) as [->|Hne].
  - split; [|discriminate]. intros Hin. now apply remove_In in Hin.
  - rewrite key_in_spec. split.
    + intros Hin. now apply in_remove in Hin.
    + intros Hin. apply in_in_remove; congruence.
Qed.

(** What a key press does to the coordinator. *)
Lemma on_press_partner (key : Key) (app : App) :
  partner (on_press key app)
    = match (if key_in Key_ctrl_l (key_add key (pressed_keys app))
                && key_in Key_shift (key_add key (pressed_keys app))
             then hotkey key else None) with
      | Some update => ui_put update (partner app)
      | None => partner app
      end /\
  pressed_keys (on_press key app) = key_add key (pressed_keys app) /\
  overlay (on_press key app) = overlay app.
Proof.
  unfold on_press.
  destruct (key_in Key_ctrl_l (key_add key (pressed_keys app))
            && key_in Key_shift (key_add key (pressed_keys app)));
    destruct key; cbn; auto.
Qed.

Lemma same_frame_trans (a b c : GamePartner) :
  same_frame a b -> same_frame b c -> same_frame a c.
Proof.
  unfold same_frame. intros (H1 & H2 & H3 & H4 & H5 & H6) (K1 & K2 & K3 & K4 & K5 & K6).
  repeat split; congruence.
Qed.

Lemma ui_put_frame (update : UiInstruction) (self : GamePartner) :
  same_frame (ui_put update self) self /\
  ai_client (ui_put update self) = ai_client self /\
  ui_update_queue (ui_put update self) = ui_update_queue self ++ [update].
Proof. unfold same_frame. cbn. auto 10. Qed.

(** One event of the keyboard. *)
Lemma keyboard_event (e : Event) (later : list Event) (app : App) :
  keyboard e ->
  ui_update_queue (partner (handle e app))
    ++ hotkeys_fired (key_in Key_ctrl_l (pressed_keys (handle e app)))
         (key_in Key_shift (pressed_keys (handle e app))) later
    = ui_update_queue (partner app)
        ++ hotkeys_fired (key_in Key_ctrl_l (pressed_keys app))
             (key_in Key_shift (pressed_keys app)) (e :: later) /\
  same_frame (partner (handle e app)) (partner app) /\
  ai_client (partner (handle e app)) = ai_client (partner app) /\
  overlay (handle e app) = overlay app.
Proof.
  destruct e as [tick|img|key|key|typed| | |clock screen]; try contradiction;
    intros _; cbn [handle hotkeys_fired].
  - destruct (on_press_partner key app) as (Hpartner & Hpressed & Hoverlay).
    rewrite Hpressed, Hoverlay, !key_in_add. rewrite !key_in_add in Hpartner.
    rewrite Hpartner.
    destruct (if flag_after_press Key_ctrl_l key (key_in Key_ctrl_l (pressed_keys app))
                 && flag_after_press Key_shift key (key_in Key_shift (pressed_keys app))
              then hotkey key else None) as [update|].
    + destruct (ui_put_frame update (partner app)) as (Hframe & Hclient & Hqueue).
      rewrite Hqueue, <- app_assoc. auto.
    + auto.
  - cbn [on_release set_pressed_keys pressed_keys partner overlay].
    rewrite !key_in_discard. auto.
Qed.

(** X20.  The hotkey listener behaves as the machine with the two flags "left
    control is down" and "shift is down": over any sequence of key
    presses and releases, whatever other keys are held, the updates
    queued for the UI are those of the presses of End, Home and Enter
    made while both are down, in order.  The keyboard never touches
    the inbox, the requests, the pacing state or the window. *)
Theorem hotkeys_follow_modifiers (events : list Event) (app : App) :
  Forall keyboard events ->
  let after := handle_all events app in
  ui_update_queue (partner after)
    = ui_update_queue (partner app)
        ++ hotkeys_fired (key_in Key_ctrl_l (pressed_keys app))
             (key_in Key_shift (pressed_keys app)) events /\
  same_frame (partner after) (partner app) /\
  ai_client (partner after) = ai_client (partner app) /\
  overlay after = overlay app.
Proof.
  intros Hkeys. revert app.
  induction Hkeys as [|e later He _ IH]; intros app.
  - cbn. rewrite app_nil_r. auto.
  - cbn [handle_all]. cbv zeta in IH.
    destruct (IH (handle e app)) as (IHq & IHframe & IHclient & IHoverlay).
    destruct (keyboard_event e later app He) as (Hq & Hframe & Hclient & Hoverlay).
    rewrite IHq, Hq, IHclient, Hclient, IHoverlay, Hoverlay.
    repeat split; try reflexivity.
    all: destruct IHframe as (H1 & H2 & H3 & H4 & H5 & H6);
      destruct Hframe as (K1 & K2 & K3 & K4 & K5 & K6); congruence.
Qed.

Lemma hotkeys_follow_modifiers_witness :
  ui_update_queue
    (partner
       (handle_all
          [Press Key_ctrl_l; Press Key_end; Press Key_shift; Press Key_end;
           Release Key_ctrl_l; Press Key_home]
          AppScenario.started))
    = [toggle_visibility].
Proof.
  destruct (hotkeys_follow_modifiers
              [Press Key_ctrl_l; Press Key_end; Press Key_shift; Press Key_end;
               Release Key_ctrl_l; Press Key_home]
              AppScenario.started) as (Hq & _).
  - repeat constructor.
  - rewrite Hq. reflexivity.
Defined.

(* ================================================================== *)
(** ** The whole application *)
(* ================================================================== *)

Lemma handle_keeps_stripped (e : Event) (app : App) :
  Forall stripped (message_queue (partner app)) ->
  Forall stripped (user_texts (sent (partner app))) ->
  Forall stripped (message_queue (partner (handle e app))) /\
  Forall stripped (user_texts (sent (partner (handle e app)))).
Proof.
  intros Hq Hsent.
  destruct e as [tick|img|key|key|typed| | |clock screen]; cbn [handle].
  - destruct (running (partner app)); [|auto].
    cbn [set_partner partner].
    destruct (iteration_effect tick (partner app))
      as ((new & Hnew & Htexts & _) & Hmq & _).
    rewrite Hmq, Hnew, user_texts_app, Htexts. split.
    + destruct (message_queue (partner app)); [constructor|].
      now inversion Hq.
    + apply Forall_app. split; [exact Hsent|].
      destruct (message_queue (partner app)) as [|m rest]; [constructor|].
      destruct (store_inhabited (partner app)); [|constructor].
      inversion Hq; subst. now constructor.
  - auto.
  - destruct (on_press_partner key app) as (-> & _).
    match goal with
    | |- context [match ?x with Some _ => _ | None => _ end] => destruct x
    end; auto.
  - auto.
  - auto.
  - unfold submit_entry, overlay_py._on_submit.
    destruct (Py.truthy (PyStr.strip (overlay_py.input_entry (overlay app)))) eqn:Ht;
      cbn [andb]; [|auto].
    destruct (overlay_py.has_message_callback (overlay app)); [|auto].
    cbn [set_partner set_overlay partner put_message set_message_queue
           message_queue sent ai_client].
    split; [|exact Hsent].
    apply Forall_app. split; [exact Hq|].
    constructor; [now apply strip_stripped|constructor].
  - auto.
  - auto.
Qed.

(** X21.  From the start of the application, whatever the user, the hotkeys and
    the three threads do, every message in the inbox and every user text
    of a request sent is a stripped text: it is not empty and has no
    white space at either end.  Blank input is never queued and never
    sent. *)
Theorem inbox_holds_stripped_text (config : Config) (window : OverlayConfig)
    (screen : Z * Z) (events : list Event) :
  let app := handle_all events (start config window screen) in
  Forall stripped (message_queue (partner app)) /\
  Forall stripped (user_texts (sent (partner app))).
Proof.
  cbv zeta.
  assert (Hgen : forall l app,
             Forall stripped (message_queue (partner app)) ->
             Forall stripped (user_texts (sent (partner app))) ->
             Forall stripped (message_queue (partner (handle_all l app))) /\
             Forall stripped (user_texts (sent (partner (handle_all l app))))).
  { induction l as [|e later IH]; intros app Hq Hsent; [auto|].
    cbn [handle_all].
    destruct (handle_keeps_stripped e app Hq Hsent) as (Hq' & Hsent').
    now apply IH. }
  apply Hgen; constructor.
Qed.

Lemma process_message_answered (self : GamePartner) (message t : string)
    (more : list string) :
  screenshots (screen_capture self) <> [] ->
  0 <= max_history (ai_client self) ->
  Py.truthy t = true ->
  ui_update_queue (_process_message (Returns (t :: more)) message self)
    = ui_update_queue self ++ [add_message message false; add_message t true].
Proof.
  intros Hstore Hmax Ht.
  rewrite (process_message_unfold (Returns (t :: more)) self Hstore message).
  pose proof (analyze_returns (message_state self message) (ai_client self)
                (Py.slice_from (-1) (get_recent_screenshots (screen_capture self) 1))
                t more eq_refl Hmax) as Hanalyze.
  rewrite Hanalyze. cbv zeta. cbn [fst snd]. rewrite Ht. cbn.
  now rewrite <- app_assoc.
Qed.

Lemma run_updates_input (clock : nat -> Q) (screen : Z * Z)
    (updates : list UiInstruction) (i : nat) (o : overlay_py.GameOverlay) :
  Forall (fun u => u <> show_input) updates ->
  overlay_py.input_entry (run_updates clock screen i updates o)
    = overlay_py.input_entry o /\
  overlay_py.input_shown (run_updates clock screen i updates o)
    = overlay_py.input_shown o.
Proof.
  intros Hno. revert i o.
  induction Hno as [|update later Hu _ IH]; intros i o; [auto|].
  cbn [run_updates].
  destruct (IH (S i) (run_update (clock i) screen update o)) as (-> & ->).
  destruct update as [text is_ai| | |]; cbn [run_update]; try congruence.
  - unfold overlay_py.add_message, overlay_py.update_messages.
    destruct (Py.pop_while_longer _ _) as [[popped rest] raised]. cbn. auto.
  - unfold overlay_py.toggle_visibility, overlay_py.update_position,
      overlay_py.update_messages.
    destruct (overlay_py.is_visible o); [cbn; auto|].
    destruct (Py.pop_while_longer _ _) as [[popped rest] raised]. cbn. auto.
  - unfold overlay_py.cycle_position, overlay_py.update_position,
      overlay_py.update_messages.
    destruct (PyStr.index _ _);
      destruct (Py.pop_while_longer _ _) as [[popped rest] raised]; cbn; auto.
Qed.

(** X22.  A message from the entry to the screen.  The user types a text that
    is not blank and presses Return; the analysis loop makes an iteration
    inside the cooldown, in which the remote answers with a text that is
    not empty; the UI pump runs.  Then the inbox and the queue of UI
    updates are empty again, the entry is cleared and hidden, and the
    window shows, after what it showed before and within its bound, the
    stripped text of the user and then the reply. *)
Theorem typed_message_round_trip (app : App) (typed t : string) (more : list string)
    (tick : Tick) (clock : nat -> Q) (screen : Z * Z) :
  running (partner app) = true ->
  message_queue (partner app) = [] ->
  ui_update_queue (partner app) = [] ->
  screenshots (screen_capture (partner app)) <> [] ->
  0 <= max_history (ai_client (partner app)) ->
  (current_time tick
     < last_analysis_time (partner app) + analysis_cooldown (partner app))%Q ->
  message_reply tick = Returns (t :: more) ->
  overlay_py.has_message_callback (overlay app) = true ->
  0 <= overlay_py.visible_messages (overlay app) ->
  Z.of_nat (length (overlay_py.messages (overlay app)))
    <= overlay_py.visible_messages (overlay app) ->
  blank typed = false ->
  Py.truthy t = true ->
  let after :=
    handle_all [Typed typed; Return; Analysis tick; Pump clock screen] app in
  message_queue (partner after) = [] /\
  ui_update_queue (partner after) = [] /\
  user_texts (sent (partner after))
    = user_texts (sent (partner app)) ++ [PyStr.strip typed] /\
  overlay_py.input_entry (overlay after) = "" /\
  overlay_py.input_shown (overlay after) = false /\
  overlay_py.messages (overlay after)
    = last_n (overlay_py.visible_messages (overlay app))
        (overlay_py.messages (overlay app)
           ++ [{| overlay_py.frame_time := clock 0%nat;
                  overlay_py.frame_text := PyStr.strip typed |};
               {| overlay_py.frame_time := clock 1%nat;
                  overlay_py.frame_text := t |}]).
Proof.
  intros Hrun Hq Hui Hstore Hmax Hearly Hreply Hcb Hv Hlen Htyped Ht after.
  assert (Hm : Py.truthy (PyStr.strip typed) = true).
  { destruct (PyStr.strip typed) eqn:E; [|reflexivity].
    apply strip_fixpoints in E. congruence. }
  set (m := PyStr.strip typed) in *.
  set (o1 := overlay_py.hide_input (overlay_py.type_text typed (overlay app))).
  set (p1 := put_message m (partner app)).
  set (p2 := set_message_queue [] p1).
  set (p3 := _process_message (Returns (t :: more)) m p2).
  (* Typed, then Return *)
  assert (Hreturn : handle Return (handle (Typed typed) app)
                    = set_partner p1 (set_overlay o1 app)).
  { cbn [handle]. unfold submit_entry, overlay_py._on_submit.
    cbn [set_overlay overlay overlay_py.type_text overlay_py.set_input
           overlay_py.input_entry overlay_py.has_message_callback partner].
    fold m. rewrite Hm, Hcb. reflexivity. }
  (* the iteration of the analysis loop *)
  assert (Hq1 : message_queue p1 = [m]).
  { unfold p1. cbn. now rewrite Hq. }
  assert (Hiter : _analysis_loop_iteration tick p1 = p3).
  { destruct (analysis_loop_iteration_cases tick p1)
      as [(Hdue & _ & _) | (_ & ->)].
    - exfalso. unfold cooldown_elapsed in Hdue. apply Qle_bool_iff in Hdue.
      unfold p1 in Hdue. cbn in Hdue. lra.
    - now rewrite (poll_inbox_pending tick p1 m [] Hq1), Hreply. }
  assert (Hstore2 : screenshots (screen_capture p2) <> []) by exact Hstore.
  assert (Hui3 : ui_update_queue p3 = [add_message m false; add_message t true]).
  { unfold p3. rewrite process_message_answered; try assumption.
    change (ui_update_queue p2) with (ui_update_queue (partner app)).
    now rewrite Hui. }
  assert (Hmq3 : message_queue p3 = []).
  { unfold p3.
    now destruct (process_message_frame (Returns (t :: more)) m p2) as (_ & -> & _). }
  assert (Hsent3 : user_texts (sent p3) = user_texts (sent (partner app)) ++ [m]).
  { unfold p3. rewrite (process_message_request _ _ _ Hstore2), user_texts_app.
    reflexivity. }
  assert (Hafter : after
                   = process_updates clock screen
                       (set_partner p3 (set_overlay o1 app))).
  { unfold after. cbn [handle_all]. rewrite Hreturn.
    cbn [handle set_partner partner].
    change (running p1) with (running (partner app)).
    rewrite Hrun, Hiter. reflexivity. }
  rewrite Hafter. unfold process_updates.
  cbn [set_overlay set_partner partner overlay].
  change (sent (set_ui_update_queue [] p3)) with (sent p3).
  change (message_queue (set_ui_update_queue [] p3)) with (message_queue p3).
  change (ui_update_queue (set_ui_update_queue [] p3)) with (@nil UiInstruction).
  rewrite Hui3, Hsent3, Hmq3.
  destruct (run_updates_input clock screen
              [add_message m false; add_message t true] 0 o1) as (Hentry & Hshown).
  { repeat constructor; discriminate. }
  destruct (run_updates_messages clock screen
              [add_message m false; add_message t true] 0 o1) as (_ & Hkeep).
  rewrite Hentry, Hshown, Hkeep by assumption.
  repeat split; reflexivity.
Qed.

Lemma typed_message_round_trip_witness :
  map overlay_py.frame_text
    (overlay_py.messages
       (overlay
          (handle_all [Typed "  hello "; Return; Analysis Scenario.tick_early;
                       Pump (fun _ => 2%Q) (1920, 1080)]
             AppScenario.ready)))
    = ["hello"; "hi"].
Proof.
  destruct (typed_message_round_trip AppScenario.ready "  hello " "hi" []
              Scenario.tick_early (fun _ => 2%Q) (1920, 1080))
    as (_ & _ & _ & _ & _ & Hshown);
    [ reflexivity | reflexivity | reflexivity | cbn; discriminate | cbn; lia
    | reflexivity | reflexivity | reflexivity | cbn; lia | cbn; lia
    | reflexivity | reflexivity | ].
  rewrite Hshown. reflexivity.
Defined.
